(** * Email extractor and summarizer (src/app/main.py): a shallow embedding.

    The FastAPI service logs into an IMAP mailbox, fetches the messages of the
    last 24 hours from a list of senders, summarizes each one with an LLM
    chat-completion API and stores the rows in a database table.

    Every effect of the code is modelled explicitly:
    - Python exceptions as the [Raise] branch of [Res];
    - [logging] calls as structured log events, one constructor per logger
      call, carrying the values its f-string formats;
    - [datetime.now], the Groq API and the Supabase table as oracles held in
      the state: streams of clock readings, of API answers and of store
      outcomes, consumed one element per call;
    - the IMAP server as a record of functions ([login], [fetch]). *)

From Stdlib Require Import ZArith List Ascii String Bool Lia.
From Stdlib Require Streams.
Import ListNotations.
Open Scope string_scope.
Open Scope Z_scope.

(** ** Data *)

(** A Python [datetime]: the wall-clock reading in seconds since the epoch
    and, when timezone-aware, the UTC offset in seconds ([utcoffset()]). *)
Record DT := mkDT { wall : Z; tz : option Z }.

(** The instant a datetime denotes (an aware one: wall time minus offset). *)
Definition instant (d : DT) : Z :=
  match tz d with Some o => wall d - o | None => wall d end.

(** [d.replace(tzinfo=utc)]: keeps the wall clock, relabels the zone. *)
Definition replace_utc (d : DT) : DT := mkDT (wall d) (Some 0).

Inductive Detail :=
| DetailFetch (message error email : string)
| DetailStr (d : string).

Inductive Exc :=
| PyErr (msg : string)
| HTTPExc (status : Z) (detail : Detail).

Inductive Res (A : Type) := Ok (a : A) | Raise (e : Exc).
Arguments Ok {A} a.
Arguments Raise {A} e.

(** [str(e)] *)
Definition exc_str (e : Exc) : string :=
  match e with
  | PyErr m => m
  | HTTPExc _ (DetailStr d) => d
  | HTTPExc _ (DetailFetch _ err _) => err
  end.

(** [d >= e] on datetimes: aware ones compare instants, naive ones compare
    wall clocks, and mixing them raises [TypeError]. *)
Definition dt_ge (a b : DT) : Res bool :=
  match tz a, tz b with
  | Some _, Some _ => Ok (instant b <=? instant a)
  | None, None => Ok (wall b <=? wall a)
  | _, _ => Raise (PyErr "can't compare offset-naive and offset-aware datetimes")
  end.

(** [d.date()] of an aware UTC datetime: the day number. *)
Definition date_of (d : DT) : Z := wall d / 86400.

(** A message as [imap_tools] yields it; reading a field may raise. *)
Record Message := mkMessage {
  m_date : Res DT;
  m_subject : Res string;
  m_from : Res string;
  m_to : Res (list string);
  m_text : Res string;
  m_html : Res string
}.

(** The [email_content] dict before its ["summary"] key is set. *)
Record Content := mkContent {
  subject : string;
  from_address : string;
  to_address : string;
  date : DT;
  text : string;
  extracted_at : DT
}.

(** The dict after [email_content["summary"] = ...]: one row of the table.
    The summary is what [summarize_single_email] returned: a string, or
    [None] when the API's message content was null. *)
Record EmailRow := mkRow { fields : Content; summary : option string }.

(** The parts of the email that the user message of the chat request carries
    (the f-string [email_text]); the content is cut at 2000 characters. *)
Record Prompt := mkPrompt {
  p_subject : string; p_from : string; p_date : DT; p_content : string }.

(** What one [groq_client.chat.completions.create] call does: raise, or
    answer with a list of choices, each given by its [message.content], which
    the API types as [Optional[str]] ([None] for a null content). *)
Inductive ApiOutcome :=
| ApiRaise (e : Exc)
| ApiChoices (contents : list (option string)).

(** The IMAP session after login, and the server. *)
Record Mailbox := mkMailbox {
  fetch : string -> Z -> Res (list Message)  (* from_ sender, date_gte day *)
}.
Record Server := mkServer { login : string -> string -> Res Mailbox }.

Record EmailRequest := mkRequest {
  email_address : string;
  password : string;
  sender_addresses : list string
}.

(** JSON values of the responses, and a response as a dict. *)
Inductive JVal :=
| JStr (s : string)
| JNum (n : Z)
| JStrList (l : list string)
| JRows (rows : list EmailRow).

Definition Response := list (string * JVal).

Fixpoint lookup (k : string) (r : Response) : option JVal :=
  match r with
  | [] => None
  | (k', v) :: r' => if String.eqb k k' then Some v else lookup k r'
  end.

(** One event per [logger] call of the code, with the values it formats. *)
Inductive LogEvent :=
| LInfoConnecting (addr : string)          (* line 108 *)
| LInfoConnected                           (* line 116 *)
| LInfoFetching (sender : string)          (* line 119 *)
| LDebugMsgDate (d cutoff : DT)            (* line 132 *)
| LInfoProcessed (subj30 : string)         (* line 149 *)
| LDebugSkipping (d cutoff : DT)           (* line 151 *)
| LErrIndividual (e : Exc)                 (* line 153 *)
| LInfoExtracted (n : nat)                 (* line 156 *)
| LErrFetch (e : Exc)                      (* line 161 *)
| LInfoGenerating (subj30 : string)        (* line 81 *)
| LErrSummary (e : Exc)                    (* line 100 *)
| LInfoStarting (addr : string)            (* line 175 *)
| LWarnNoEmails                            (* line 184 *)
| LInfoStoring                             (* line 191 *)
| LInfoStored (subj30 : string)            (* line 197 *)
| LErrStore (e : Exc)                      (* line 199 *)
| LErrExtract (e : Exc)                    (* line 210 *)
| LInfoRetrieving                          (* line 219 *)
| LWarnNoDb                                (* line 224 *)
| LErrGet (e : Exc).                       (* line 233 *)

(** ** The state, and the state/exception/log monad *)

(** [clock]: successive readings of [datetime.now(utc)] (epoch seconds);
    [api]: the answer of each successive chat-completion call, as a function
    of the prompt; [store]: the outcome of each successive Supabase operation
    ([None] = success, [Some err] = it raises); [db]: the rows of the table. *)
Record St := mkSt {
  clock : Streams.Stream Z;
  api : Streams.Stream (Prompt -> ApiOutcome);
  store : Streams.Stream (option string);
  db : list EmailRow
}.

Record Out (A : Type) := mkOut { res : Res A; post : St; logs : list LogEvent }.
Arguments mkOut {A} res post logs.
Arguments res {A} o.
Arguments post {A} o.
Arguments logs {A} o.

Definition M (A : Type) := St -> Out A.

Definition ret {A} (a : A) : M A := fun s => mkOut (Ok a) s [].
Definition raise {A} (e : Exc) : M A := fun s => mkOut (Raise e) s [].
Definition lift {A} (r : Res A) : M A := fun s => mkOut r s [].

Definition bind {A B} (m : M A) (f : A -> M B) : M B := fun s =>
  let o := m s in
  match res o with
  | Ok a => let o2 := f a (post o) in mkOut (res o2) (post o2) ((logs o ++ logs o2)%list)
  | Raise e => mkOut (Raise e) (post o) (logs o)
  end.

(** [try: m except Exception as e: h e] *)
Definition catch {A} (m : M A) (h : Exc -> M A) : M A := fun s =>
  let o := m s in
  match res o with
  | Ok _ => o
  | Raise e => let o2 := h e (post o) in mkOut (res o2) (post o2) ((logs o ++ logs o2)%list)
  end.

Notation "x <- m ; k" := (bind m (fun x => k)) (at level 60, m at next level, right associativity).
Notation "m ;; k" := (bind m (fun _ => k)) (at level 60, right associativity).

Definition log (e : LogEvent) : M unit := fun s => mkOut (Ok tt) s [e].

(** [datetime.now(utc)] *)
Definition now : M DT := fun s =>
  mkOut (Ok (mkDT (Streams.hd (clock s)) (Some 0)))
        (mkSt (Streams.tl (clock s)) (api s) (store s) (db s)) [].

(** One chat-completion call. *)
Definition call_api (p : Prompt) : M ApiOutcome := fun s =>
  mkOut (Ok (Streams.hd (api s) p))
        (mkSt (clock s) (Streams.tl (api s)) (store s) (db s)) [].

(** [supabase.table("emails").insert(row).execute()] *)
Definition insert_row (r : EmailRow) : M unit := fun s =>
  let s' := mkSt (clock s) (api s) (Streams.tl (store s)) (db s) in
  match Streams.hd (store s) with
  | None => mkOut (Ok tt) (mkSt (clock s) (api s) (Streams.tl (store s)) ((db s ++ [r])%list)) []
  | Some err => mkOut (Raise (PyErr err)) s' []
  end.

(** Ordering by [date], latest first (an insertion sort). *)
Fixpoint insert_desc (r : EmailRow) (l : list EmailRow) : list EmailRow :=
  match l with
  | [] => [r]
  | r' :: l' =>
      if instant (date (fields r')) <=? instant (date (fields r)) then r :: l
      else r' :: insert_desc r l'
  end.

Fixpoint sort_desc (l : list EmailRow) : list EmailRow :=
  match l with [] => [] | r :: l' => insert_desc r (sort_desc l') end.

(** Ordering by [date], earliest first (ties in no particular order, as in SQL). *)
Definition sort_asc (l : list EmailRow) : list EmailRow := rev (sort_desc l).

(** postgrest-py's [order(column, desc=False, nullsfirst=False)] adds the
    query parameter [order=<column>.<asc|desc>[.nullsfirst]]. *)
Definition order_param (column : string) (desc nullsfirst : bool) : string :=
  column ++ (if desc then ".desc" else ".asc") ++
  (if nullsfirst then ".nullsfirst" else "").

(** [str.split('.')] *)
Fixpoint split_dot (s : string) : list string :=
  match s with
  | EmptyString => [EmptyString]
  | String c s' =>
      let parts := split_dot s' in
      if Ascii.eqb c "."%char then EmptyString :: parts
      else match parts with
           | p :: ps => String c p :: ps
           | [] => [String c EmptyString]
           end
  end.

(** PostgREST's grammar of one order term:
    [field[.asc|.desc][.nullsfirst|.nullslast]]; the result is the field and
    whether the order is descending. *)
Definition parse_order_term (t : string) : option (string * bool) :=
  let dir d := if String.eqb d "asc" then Some false
               else if String.eqb d "desc" then Some true else None in
  let nulls n := String.eqb n "nullsfirst" || String.eqb n "nullslast" in
  match split_dot t with
  | [f] => Some (f, false)
  | [f; x] =>
      match dir x with
      | Some b => Some (f, b)
      | None => if nulls x then Some (f, false) else None
      end
  | [f; x; y] =>
      match dir x with
      | Some b => if nulls y then Some (f, b) else None
      | None => None
      end
  | _ => None
  end.

(** The message of the error PostgREST answers (400, code PGRST100) for an
    order term it cannot parse; supabase raises it as an [APIError]. *)
Definition order_error (t : string) : string :=
  "failed to parse order (" ++ t ++ ")".

(** [supabase.table("emails").select("*").order(column, desc=desc).execute().data]:
    a transport failure raises; otherwise PostgREST parses the order
    parameter, rejects it when it is malformed, and answers the rows ordered
    by the field it names. Only ordering by [date] is modelled (the code
    orders by nothing else); any other field is reported as unknown. *)
Definition select_ordered (column : string) (desc : bool) : M (list EmailRow) := fun s =>
  let s' := mkSt (clock s) (api s) (Streams.tl (store s)) (db s) in
  match Streams.hd (store s) with
  | Some err => mkOut (Raise (PyErr err)) s' []
  | None =>
      let t := order_param column desc false in
      match parse_order_term t with
      | None => mkOut (Raise (PyErr (order_error t))) s' []
      | Some (f, d) =>
          if String.eqb f "date"
          then mkOut (Ok (if d then sort_desc (db s) else sort_asc (db s))) s' []
          else mkOut (Raise (PyErr ("column emails." ++ f ++ " does not exist"))) s' []
      end
  end.

(** ** The code *)

(** A continuation byte of UTF-8 ([10xxxxxx]). *)
Definition utf8_cont (c : Ascii.ascii) : bool :=
  let n := Z.of_N (Ascii.N_of_ascii c) in (128 <=? n) && (n <? 192).

(** Python's [s[:n]] on a [str], over its UTF-8 bytes: the first [n] code
    points, each with its continuation bytes. *)
Fixpoint py_prefix (n : nat) (s : string) : string :=
  match s with
  | EmptyString => EmptyString
  | String c s' =>
      if utf8_cont c then String c (py_prefix n s')
      else match n with
           | O => EmptyString
           | S n' => String c (py_prefix n' s')
           end
  end.

(** [email_content['subject'][:30]] *)
Definition prefix30 (s : string) : string := py_prefix 30 s.

Fixpoint join (sep : string) (l : list string) : string :=
  match l with
  | [] => ""
  | [x] => x
  | x :: l' => x ++ sep ++ join sep l'
  end.

Definition sentinel : string := "Failed to generate summary".

(** [summarize_single_email] (lines 71-101). It returns the first choice's
    [message.content] as is, [None] included. *)
Definition summarize_single_email (c : Content) : M (option string) :=
  catch
    (let email_text :=
       mkPrompt (subject c) (from_address c) (date c) (py_prefix 2000 (text c)) in
     log (LInfoGenerating (prefix30 (subject c)));;
     o <- call_api email_text;
     match o with
     | ApiRaise e => raise e
     | ApiChoices [] => raise (PyErr "list index out of range")
     | ApiChoices (ch :: _) => ret ch
     end)
    (fun e => log (LErrSummary e);; ret (Some sentinel)).

(** The body of the [try] of the message loop (lines 130-151); [acc] is
    [email_data]. *)
Definition process_body (cutoff : DT) (m : Message) (acc : list EmailRow)
  : M (list EmailRow) :=
  d <- lift (m_date m);
  let msg_date := replace_utc d in
  log (LDebugMsgDate msg_date cutoff);;
  keep <- lift (dt_ge msg_date cutoff);
  if keep then
    subj <- lift (m_subject m);
    frm <- lift (m_from m);
    to <- lift (m_to m);
    txt <- lift (m_text m);
    body <- (if String.eqb txt "" then lift (m_html m) else ret txt);
    t <- now;
    let c := mkContent subj frm (join ", " to) msg_date body t in
    sm <- summarize_single_email c;
    let acc' := (acc ++ [mkRow c sm])%list in
    log (LInfoProcessed (prefix30 subj));;
    ret acc'
  else
    log (LDebugSkipping msg_date cutoff);;
    ret acc.

(** [for msg in messages: try ... except Exception as e: log; continue] *)
Fixpoint process_msgs (cutoff : DT) (ms : list Message) (acc : list EmailRow)
  : M (list EmailRow) :=
  match ms with
  | [] => ret acc
  | m :: ms' =>
      acc' <- catch (process_body cutoff m acc)
                    (fun e => log (LErrIndividual e);; ret acc);
      process_msgs cutoff ms' acc'
  end.

(** [for sender in sender_addresses: ...] (lines 118-154). *)
Fixpoint process_senders (mb : Mailbox) (cutoff : DT) (senders : list string)
  (acc : list EmailRow) : M (list EmailRow) :=
  match senders with
  | [] => ret acc
  | s :: ss =>
      log (LInfoFetching s);;
      msgs <- lift (fetch mb s (date_of cutoff));
      acc' <- process_msgs cutoff msgs acc;
      process_senders mb cutoff ss acc'
  end.

(** [extract_emails_from_inbox] (lines 103-169). *)
Definition extract_emails_from_inbox (srv : Server) (addr pw : string)
  (senders : list string) : M (list EmailRow) :=
  catch
    (log (LInfoConnecting addr);;
     t <- now;
     let date_since := mkDT (wall t - 86400) (Some 0) in
     mb <- lift (login srv addr pw);
     log LInfoConnected;;
     rows <- process_senders mb date_since senders [];
     log (LInfoExtracted (List.length rows));;
     ret rows)
    (fun e => log (LErrFetch e);;
              raise (HTTPExc 500 (DetailFetch "Failed to fetch emails" (exc_str e) addr))).

(** The store loop of [/extract] (lines 192-200); [count] is [stored_count]. *)
Fixpoint store_loop (rows : list EmailRow) (count : Z) : M Z :=
  match rows with
  | [] => ret count
  | r :: rs =>
      c' <- catch (insert_row r;;
                   let count' := count + 1 in
                   log (LInfoStored (prefix30 (subject (fields r))));;
                   ret count')
                  (fun e => log (LErrStore e);; ret count);
      store_loop rs c'
  end.

Definition no_emails_msg : string :=
  "No emails found in the last 24 hours from specified senders".

(** [POST /extract] (lines 171-213). *)
Definition extract_from_email (srv : Server) (req : EmailRequest) : M Response :=
  catch
    (log (LInfoStarting (email_address req));;
     extracted <- extract_emails_from_inbox srv (email_address req) (password req)
                    (sender_addresses req);
     match extracted with
     | [] =>
         log LWarnNoEmails;;
         ret [("message", JStr no_emails_msg);
              ("senders_processed", JStrList (sender_addresses req))]
     | _ =>
         log LInfoStoring;;
         stored <- store_loop extracted 0;
         ret [("message", JStr "Emails extracted and stored successfully");
              ("emails_found", JNum (Z.of_nat (List.length extracted)));
              ("emails_stored", JNum stored);
              ("senders_processed", JStrList (sender_addresses req))]
     end)
    (fun e => log (LErrExtract e);;
              match e with
              | HTTPExc _ _ => raise e
              | PyErr m => raise (HTTPExc 500 (DetailStr m))
              end).

(** [GET /emails] (lines 215-234). *)
Definition get_emails : M Response :=
  catch
    (log LInfoRetrieving;;
     emails <- select_ordered "date.desc" false;
     match emails with
     | [] => log LWarnNoDb;; ret [("message", JStr "No emails found in database")]
     | _ => ret [("emails", JRows emails); ("total_count", JNum (Z.of_nat (List.length emails)))]
     end)
    (fun e => log (LErrGet e);; raise (HTTPExc 500 (DetailStr (exc_str e)))).

(** ** Definitions used by the statements: provenance of rows, the cutoff,
    the outcome of one loop iteration, and concrete inputs *)

(** Where a row comes from: a message whose fields could all be read, whose
    [msg_date] passed the comparison with [cutoff], and whose fields the row
    carries ([text] being [msg.text or msg.html]). *)
Definition row_of (cutoff : DT) (m : Message) (r : EmailRow) : Prop :=
  exists d subj frm to txt t,
    m_date m = Ok d /\ m_subject m = Ok subj /\ m_from m = Ok frm /\
    m_to m = Ok to /\ m_text m = Ok txt /\
    dt_ge (replace_utc d) cutoff = Ok true /\
    (if String.eqb txt "" then m_html m = Ok (text (fields r))
     else text (fields r) = txt) /\
    fields r = mkContent subj frm (join ", " to) (replace_utc d) (text (fields r)) t.

(** The cutoff of an invocation started in state [st]: the first clock
    reading minus one day, in UTC. *)
Definition cutoff_of (st : St) : DT := mkDT (Streams.hd (clock st) - 86400) (Some 0).

(** Every field of the message can be read, and its date is [d]. *)
Definition readable (m : Message) (d : DT) : Prop :=
  m_date m = Ok d /\ (exists subj, m_subject m = Ok subj) /\
  (exists frm, m_from m = Ok frm) /\ (exists to, m_to m = Ok to) /\
  (exists txt, m_text m = Ok txt) /\ (exists html, m_html m = Ok html).

(** 2026-10-13 12:00:00 UTC, as epoch seconds. *)
Definition now_ex : Z := 1791892800.

(** A message whose Date header is [Tue, 13 Oct 2026 10:00:00 +0200]: wall
    clock 10:00 (1791885600 read as UTC), offset +2h, i.e. 08:00 UTC. *)
Definition msg_ex : Message :=
  mkMessage (Ok (mkDT 1791885600 (Some 7200))) (Ok "Weekly report")
    (Ok "a@x.com") (Ok ["me@y.com"]) (Ok "hello") (Ok "<p>hello</p>").

Definition mb_ex : Mailbox :=
  mkMailbox (fun s _ => if String.eqb s "a@x.com" then Ok [msg_ex] else Ok []).

Definition srv_ex : Server :=
  mkServer (fun _ p => if String.eqb p "right" then Ok mb_ex
                       else Raise (PyErr "[AUTHENTICATIONFAILED] Invalid credentials")).

Definition st_ex : St :=
  mkSt (Streams.const now_ex) (Streams.const (fun _ => ApiChoices [Some "A weekly report."]))
       (Streams.const None) [].

(** How one run of the loop body ends; which case applies depends only on
    the message and the cutoff, never on the state. *)
Inductive BodyKind :=
| BFail (e : Exc)
| BSkip
| BKeep (mk : DT -> Content).

Definition prompt_of (c : Content) : Prompt :=
  mkPrompt (subject c) (from_address c) (date c) (py_prefix 2000 (text c)).

Definition summary_of (o : ApiOutcome) : option string :=
  match o with ApiChoices (ch :: _) => ch | _ => Some sentinel end.

Definition body_spec (k : BodyKind) cutoff m acc st : Prop :=
  let o := process_body cutoff m acc st in
  match k with
  | BFail e => res o = Raise e /\ post o = st
  | BSkip => res o = Ok acc /\ post o = st
  | BKeep mk =>
      let c := mk (mkDT (Streams.hd (clock st)) (Some 0)) in
      res o = Ok (acc ++ [mkRow c (summary_of (Streams.hd (api st) (prompt_of c)))])%list /\
      post o = mkSt (Streams.tl (clock st)) (Streams.tl (api st)) (store st) (db st)
  end.

(** One iteration of the message loop ([try] body plus [except] clause). *)
Definition step (cutoff : DT) (m : Message) (acc : list EmailRow) : M (list EmailRow) :=
  catch (process_body cutoff m acc) (fun e => log (LErrIndividual e);; ret acc).

Definition step_spec (k : BodyKind) cutoff m acc st : Prop :=
  let o := step cutoff m acc st in
  match k with
  | BFail _ | BSkip => res o = Ok acc /\ post o = st
  | BKeep mk =>
      let c := mk (mkDT (Streams.hd (clock st)) (Some 0)) in
      res o = Ok (acc ++ [mkRow c (summary_of (Streams.hd (api st) (prompt_of c)))])%list /\
      post o = mkSt (Streams.tl (clock st)) (Streams.tl (api st)) (store st) (db st)
  end.

Record same_run {A} (o1 o2 : Out A) : Prop := { same_res : res o1 = res o2; same_post : post o1 = post o2 }.

(** An email dict as the loop builds it. *)
Definition content_ex : Content :=
  mkContent "Weekly report" "a@x.com" "me@y.com" (mkDT 1791885600 (Some 0)) "hello"
            (mkDT now_ex (Some 0)).

(** A state in which every summarization call times out. *)
Definition st_api_down : St :=
  mkSt (Streams.const now_ex) (Streams.const (fun _ => ApiRaise (PyErr "Request timed out.")))
       (Streams.const None) [].

(** [msg_ex] with a [To] header that cannot be decoded. *)
Definition msg_bad : Message :=
  mkMessage (Ok (mkDT 1791885600 (Some 7200))) (Ok "Broken") (Ok "a@x.com")
    (Raise (PyErr "malformed header")) (Ok "x") (Ok "").

(** A computation that leaves the Supabase table and its outcome stream
    alone. *)
Record pres {A} (m : M A) : Prop :=
  { pres_st : forall s, store (post (m s)) = store s /\ db (post (m s)) = db s }.

(** The number of successes among the next [n] store outcomes, and the rows
    that succeed when [rows] are inserted one after the other. *)
Fixpoint successes (n : nat) (s : Streams.Stream (option string)) : Z :=
  match n with
  | O => 0
  | S n' => (match Streams.hd s with None => 1 | Some _ => 0 end) + successes n' (Streams.tl s)
  end.

Fixpoint inserted (rows : list EmailRow) (s : Streams.Stream (option string)) : list EmailRow :=
  match rows with
  | [] => []
  | r :: rs => (match Streams.hd s with None => [r] | Some _ => [] end ++ inserted rs (Streams.tl s))%list
  end.

(** One iteration of the store loop. *)
Definition store_step (r : EmailRow) (count : Z) : M Z :=
  catch (insert_row r;;
         let count' := count + 1 in
         log (LInfoStored (prefix30 (subject (fields r))));;
         ret count')
        (fun e => log (LErrStore e);; ret count).

(** Every insert of this state fails once, then succeeds. *)
Definition st_flaky : St :=
  mkSt (Streams.const now_ex) (Streams.const (fun _ => ApiChoices [Some "A weekly report."]))
       (Streams.Cons (Some "duplicate key value") (Streams.const None)) [].

Definition mb_two : Mailbox :=
  mkMailbox (fun s _ => if String.eqb s "a@x.com" then Ok [msg_ex; msg_ex] else Ok []).

Definition srv_two : Server := mkServer (fun _ _ => Ok mb_two).

Definition srv_open : Server := mkServer (fun _ _ => Ok mb_ex).

(** A mailbox whose search fails for every sender but a@x.com. *)
Definition mb_flaky : Mailbox :=
  mkMailbox (fun s _ => if String.eqb s "a@x.com" then Ok [msg_ex]
                        else Raise (PyErr "command SEARCH illegal in state AUTH")).

Definition srv_flaky : Server := mkServer (fun _ _ => Ok mb_flaky).

(** 2000 characters of padding followed by [tail]. *)
Definition long_text (tail : string) : string :=
  (String.concat "" (List.repeat "a" 2000) ++ tail)%string.

(** A state in which every store operation fails. *)
Definition st_store_down : St :=
  mkSt (Streams.const now_ex) (Streams.const (fun _ => ApiChoices [Some "A weekly report."]))
       (Streams.const (Some "permission denied for table emails")) [].

(** A state in which every API answer has one choice with a null content. *)
Definition st_null : St :=
  mkSt (Streams.const now_ex) (Streams.const (fun _ => ApiChoices [None]))
       (Streams.const None) [].

(** ** Reasoning about the monad *)

Section MonadFacts.
Context {A B : Type}.

Lemma bind_res_ok (m : M A) (f : A -> M B) s b :
  res (bind m f s) = Ok b ->
  exists a, res (m s) = Ok a /\ res (f a (post (m s))) = Ok b.
Proof.
  unfold bind. destruct (res (m s)) as [a|e] eqn:E; simpl; [|discriminate].
  intro H. exists a. auto.
Qed.

Lemma catch_res_ok (m : M A) (h : Exc -> M A) s a :
  res (catch m h s) = Ok a ->
  res (m s) = Ok a \/ exists e, res (m s) = Raise e /\ res (h e (post (m s))) = Ok a.
Proof.
  unfold catch. destruct (res (m s)) as [a'|e] eqn:E; simpl.
  - rewrite E. intro H. left. exact H.
  - intro H. right. exists e. auto.
Qed.

End MonadFacts.

Lemma process_body_rows cutoff m acc st acc' :
  res (process_body cutoff m acc st) = Ok acc' ->
  acc' = acc \/ exists r, acc' = (acc ++ [r])%list /\ row_of cutoff m r.
Proof.
  unfold process_body. intro H.
  apply bind_res_ok in H as [d [Hd H]]. cbn [res post lift ret log] in Hd, H.
  apply bind_res_ok in H as [u [_ H]].
  apply bind_res_ok in H as [keep [Hk H]]. cbn [res post lift ret log] in Hk, H.
  destruct keep.
  - apply bind_res_ok in H as [subj [Hs H]]. cbn [res post lift ret log] in Hs, H.
    apply bind_res_ok in H as [frm [Hf H]]. cbn [res post lift ret log] in Hf, H.
    apply bind_res_ok in H as [to [Hto H]]. cbn [res post lift ret log] in Hto, H.
    apply bind_res_ok in H as [txt [Htx H]]. cbn [res post lift ret log] in Htx, H.
    apply bind_res_ok in H as [body [Hb H]].
    apply bind_res_ok in H as [t [_ H]].
    apply bind_res_ok in H as [sm [_ H]].
    apply bind_res_ok in H as [u' [_ H]].
    cbn [res post lift ret log] in H. injection H as <-.
    right. eexists. split; [reflexivity|].
    exists d, subj, frm, to, txt, t. cbn.
    repeat split; auto.
    destruct (String.eqb txt "") eqn:E.
    + exact Hb.
    + cbn [res post lift ret log] in Hb. congruence.
  - apply bind_res_ok in H as [u' [_ H]]. cbn [res post lift ret log] in H. injection H as <-.
    left. reflexivity.
Qed.

Lemma process_msgs_rows cutoff ms : forall acc st rows,
  res (process_msgs cutoff ms acc st) = Ok rows ->
  forall r, In r rows -> In r acc \/ exists m, In m ms /\ row_of cutoff m r.
Proof.
  induction ms as [|m ms IH]; intros acc st rows H r Hr.
  - cbn in H. injection H as <-. left. exact Hr.
  - cbn [process_msgs] in H.
    apply bind_res_ok in H as [acc' [Hc H]].
    destruct (IH _ _ _ H r Hr) as [Hin|[m' [Hm' Hrow]]];
      [|right; exists m'; split; [right; exact Hm'|exact Hrow]].
    apply catch_res_ok in Hc as [Hc|[e [_ Hc]]].
    + destruct (process_body_rows _ _ _ _ _ Hc) as [->|[r' [-> Hrow]]].
      * left. exact Hin.
      * apply in_app_or in Hin as [Hin|[<-|[]]].
        -- left. exact Hin.
        -- right. exists m. split; [left; reflexivity|exact Hrow].
    + cbn in Hc. injection Hc as <-. left. exact Hin.
Qed.

Lemma process_senders_rows mb cutoff ss : forall acc st rows,
  res (process_senders mb cutoff ss acc st) = Ok rows ->
  forall r, In r rows -> In r acc \/
    exists s msgs m, In s ss /\ fetch mb s (date_of cutoff) = Ok msgs /\
                     In m msgs /\ row_of cutoff m r.
Proof.
  induction ss as [|s ss IH]; intros acc st rows H r Hr.
  - cbn in H. injection H as <-. left. exact Hr.
  - cbn [process_senders] in H.
    apply bind_res_ok in H as [u [_ H]].
    apply bind_res_ok in H as [msgs [Hf H]]. cbn [res post lift] in Hf, H.
    apply bind_res_ok in H as [acc' [Hp H]].
    destruct (IH _ _ _ H r Hr) as [Hin|[s' [msgs' [m [Hs [Hf' [Hm Hrow]]]]]]].
    + destruct (process_msgs_rows _ _ _ _ _ Hp r Hin) as [Hin'|[m [Hm Hrow]]].
      * left. exact Hin'.
      * right. exists s, msgs, m. repeat split; auto. left. reflexivity.
    + right. exists s', msgs', m. repeat split; auto. right. exact Hs.
Qed.

Lemma extract_rows srv addr pw senders st rows :
  res (extract_emails_from_inbox srv addr pw senders st) = Ok rows ->
  forall r, In r rows ->
    exists mb s msgs m, login srv addr pw = Ok mb /\ In s senders /\
      fetch mb s (date_of (cutoff_of st)) = Ok msgs /\ In m msgs /\
      row_of (cutoff_of st) m r.
Proof.
  unfold extract_emails_from_inbox. intros H r Hr.
  apply catch_res_ok in H as [H|[e [_ H]]].
  - apply bind_res_ok in H as [u [_ H]].
    apply bind_res_ok in H as [t [Ht H]]. cbn [res post lift log now] in Ht, H.
    injection Ht as <-.
    apply bind_res_ok in H as [mb [Hl H]]. cbn [res post lift] in Hl, H.
    apply bind_res_ok in H as [u' [_ H]].
    apply bind_res_ok in H as [rows' [Hp H]].
    apply bind_res_ok in H as [u'' [_ H]]. cbn in H. injection H as <-.
    cbn [log post] in Hp.
    destruct (process_senders_rows _ _ _ _ _ _ Hp r Hr) as [[]|[s [msgs [m Hx]]]].
    exists mb, s, msgs, m. unfold cutoff_of. cbn in Hx |- *. tauto.
  - apply bind_res_ok in H as [u [_ H]]. cbn in H. discriminate.
Qed.

Lemma bind_ok_eq {A B} (m : M A) (f : A -> M B) s a :
  res (m s) = Ok a ->
  bind m f s = mkOut (res (f a (post (m s)))) (post (f a (post (m s))))
                     ((logs (m s) ++ logs (f a (post (m s))))%list).
Proof. intro H. unfold bind. rewrite H. reflexivity. Qed.

(** The shape of one summarization: the API answer of the call decides it. *)
Lemma summarize_eq c s :
  let p := mkPrompt (subject c) (from_address c) (date c) (py_prefix 2000 (text c)) in
  let s' := mkSt (clock s) (Streams.tl (api s)) (store s) (db s) in
  summarize_single_email c s =
  match Streams.hd (api s) p with
  | ApiChoices (ch :: _) => mkOut (Ok ch) s' [LInfoGenerating (prefix30 (subject c))]
  | ApiChoices [] =>
      mkOut (Ok (Some sentinel)) s'
        [LInfoGenerating (prefix30 (subject c));
         LErrSummary (PyErr "list index out of range")]
  | ApiRaise e =>
      mkOut (Ok (Some sentinel)) s' [LInfoGenerating (prefix30 (subject c)); LErrSummary e]
  end.
Proof.
  unfold summarize_single_email, catch, bind, log, call_api, ret, raise. cbn.
  destruct (Streams.hd (api s) _) as [e|[|ch l]]; reflexivity.
Qed.

Lemma summarize_ok c s : exists sm, res (summarize_single_email c s) = Ok sm.
Proof.
  rewrite summarize_eq. destruct (Streams.hd (api s) _) as [e|[|ch l]]; eexists; reflexivity.
Qed.

Lemma process_body_keep cutoff m d acc st :
  readable m d -> dt_ge (replace_utc d) cutoff = Ok true ->
  exists r, res (process_body cutoff m acc st) = Ok (acc ++ [r])%list /\
            date (fields r) = replace_utc d.
Proof.
  intros (Hd & [subj Hs] & [frm Hf] & [to Hto] & [txt Htx] & [html Hh]) Hk.
  unfold process_body.
  rewrite (bind_ok_eq (lift (m_date m)) _ st d Hd). cbn [res post logs lift log bind].
  rewrite (bind_ok_eq (lift (dt_ge (replace_utc d) cutoff)) _ st true Hk). cbn [res post logs lift log bind].
  rewrite (bind_ok_eq (lift (m_subject m)) _ st subj Hs). cbn [res post logs lift].
  rewrite (bind_ok_eq (lift (m_from m)) _ st frm Hf). cbn [res post logs lift].
  rewrite (bind_ok_eq (lift (m_to m)) _ st to Hto). cbn [res post logs lift].
  rewrite (bind_ok_eq (lift (m_text m)) _ st txt Htx). cbn [res post logs lift].
  set (body := if String.eqb txt "" then html else txt).
  assert (Hb : res ((if String.eqb txt "" then lift (m_html m) else ret txt) st) = Ok body)
    by (subst body; destruct (String.eqb txt ""); [exact Hh|reflexivity]).
  rewrite (bind_ok_eq _ _ _ body Hb).
  assert (Hp : post ((if String.eqb txt "" then lift (m_html m) else ret txt) st) = st)
    by (destruct (String.eqb txt ""); reflexivity).
  rewrite Hp. cbn [res post logs].
  rewrite (bind_ok_eq _ _ _ _ (eq_refl : res (now st) = Ok (mkDT (Streams.hd (clock st)) (Some 0)))).
  cbn [res post logs].
  match goal with |- context [bind (summarize_single_email ?c) ?f ?s] =>
    destruct (summarize_ok c s) as [sm Hsm];
    rewrite (bind_ok_eq (summarize_single_email c) f s sm Hsm) end.
  cbn. eexists. split; reflexivity.
Qed.

Lemma process_step_ok cutoff m acc st : exists acc',
  res (catch (process_body cutoff m acc) (fun e => log (LErrIndividual e);; ret acc) st)
  = Ok acc'.
Proof.
  unfold catch. destruct (res (process_body cutoff m acc st)) eqn:E.
  - rewrite E. eexists. reflexivity.
  - cbn. eexists. reflexivity.
Qed.

Lemma process_step_incl cutoff m acc st acc' :
  res (catch (process_body cutoff m acc) (fun e => log (LErrIndividual e);; ret acc) st)
  = Ok acc' -> incl acc acc'.
Proof.
  intro H. apply catch_res_ok in H as [H|[e [_ H]]].
  - destruct (process_body_rows _ _ _ _ _ H) as [->|[r [-> _]]].
    + apply incl_refl.
    + apply incl_appl, incl_refl.
  - cbn in H. injection H as <-. apply incl_refl.
Qed.

Lemma process_msgs_ok cutoff ms : forall acc st, exists rows,
  res (process_msgs cutoff ms acc st) = Ok rows.
Proof.
  induction ms as [|m ms IH]; intros acc st.
  - eexists. reflexivity.
  - cbn [process_msgs].
    destruct (process_step_ok cutoff m acc st) as [acc' Hacc].
    rewrite (bind_ok_eq _ _ _ _ Hacc). cbn [res].
    apply IH.
Qed.

Lemma process_msgs_incl cutoff ms : forall acc st rows,
  res (process_msgs cutoff ms acc st) = Ok rows -> incl acc rows.
Proof.
  induction ms as [|m ms IH]; intros acc st rows H.
  - cbn in H. injection H as <-. apply incl_refl.
  - cbn [process_msgs] in H. apply bind_res_ok in H as [acc' [Hc H]].
    eapply incl_tran; [eapply process_step_incl; exact Hc|eapply IH; exact H].
Qed.

Lemma process_msgs_complete cutoff ms m d : forall acc st rows,
  In m ms -> readable m d -> dt_ge (replace_utc d) cutoff = Ok true ->
  res (process_msgs cutoff ms acc st) = Ok rows ->
  exists r, In r rows /\ date (fields r) = replace_utc d.
Proof.
  induction ms as [|m' ms IH]; intros acc st rows Hin Hr Hk H; [destruct Hin|].
  cbn [process_msgs] in H. apply bind_res_ok in H as [acc' [Hc H]].
  destruct Hin as [->|Hin]; [|eapply IH; eauto].
  destruct (process_body_keep cutoff m d acc st Hr Hk) as [r [Hb Hdate]].
  unfold catch in Hc. rewrite Hb in Hc. rewrite Hb in Hc. injection Hc as <-.
  exists r. split; [|exact Hdate].
  apply (process_msgs_incl _ _ _ _ _ H). apply in_or_app. right. left. reflexivity.
Qed.

Lemma process_senders_incl mb cutoff ss : forall acc st rows,
  res (process_senders mb cutoff ss acc st) = Ok rows -> incl acc rows.
Proof.
  induction ss as [|s ss IH]; intros acc st rows H.
  - cbn in H. injection H as <-. apply incl_refl.
  - cbn [process_senders] in H.
    apply bind_res_ok in H as [u [_ H]].
    apply bind_res_ok in H as [msgs [_ H]].
    apply bind_res_ok in H as [acc' [Hp H]].
    eapply incl_tran; [eapply process_msgs_incl; exact Hp|eapply IH; exact H].
Qed.

Lemma process_senders_complete mb cutoff ss s msgs m d : forall acc st rows,
  In s ss -> fetch mb s (date_of cutoff) = Ok msgs -> In m msgs ->
  readable m d -> dt_ge (replace_utc d) cutoff = Ok true ->
  res (process_senders mb cutoff ss acc st) = Ok rows ->
  exists r, In r rows /\ date (fields r) = replace_utc d.
Proof.
  induction ss as [|s' ss IH]; intros acc st rows Hs Hf Hm Hr Hk H; [destruct Hs|].
  cbn [process_senders] in H.
  apply bind_res_ok in H as [u [_ H]].
  apply bind_res_ok in H as [msgs' [Hf' H]]. cbn [res post lift] in Hf', H.
  apply bind_res_ok in H as [acc' [Hp H]].
  destruct Hs as [->|Hs]; [|eapply IH; eauto].
  rewrite Hf in Hf'. injection Hf' as <-.
  destruct (process_msgs_complete _ _ _ _ _ _ _ Hm Hr Hk Hp) as [r [Hin Hdate]].
  exists r. split; [|exact Hdate].
  exact (process_senders_incl _ _ _ _ _ _ H r Hin).
Qed.

(** ** Properties of the extraction *)

Lemma dt_ge_cutoff d st :
  dt_ge (replace_utc d) (cutoff_of st) = Ok (instant (cutoff_of st) <=? instant (replace_utc d)).
Proof. reflexivity. Qed.

Lemma extract_ok_inv srv addr pw senders st rows :
  res (extract_emails_from_inbox srv addr pw senders st) = Ok rows ->
  exists mb st', login srv addr pw = Ok mb /\
    res (process_senders mb (cutoff_of st) senders [] st') = Ok rows.
Proof.
  unfold extract_emails_from_inbox. intros H.
  apply catch_res_ok in H as [H|[e [_ H]]].
  - apply bind_res_ok in H as [u [_ H]].
    apply bind_res_ok in H as [t [Ht H]]. cbn [res post lift log now] in Ht, H.
    injection Ht as <-.
    apply bind_res_ok in H as [mb [Hl H]]. cbn [res post lift] in Hl, H.
    apply bind_res_ok in H as [u' [_ H]].
    apply bind_res_ok in H as [rows' [Hp H]].
    apply bind_res_ok in H as [u'' [_ H]]. cbn in H. injection H as <-.
    exists mb. eexists. split; [exact Hl|exact Hp].
  - apply bind_res_ok in H as [u [_ H]]. cbn in H. discriminate.
Qed.

(** C1: every returned row is dated at or after the cutoff of the
    invocation (the first clock reading minus 24 hours); a message whose
    [msg_date] is earlier than the cutoff produces no row and no error: the
    loop body returns [email_data] unchanged and only logs at debug level. *)
Theorem extract_rows_after_cutoff srv addr pw senders st rows
  (H : res (extract_emails_from_inbox srv addr pw senders st) = Ok rows) :
  Forall (fun r => instant (cutoff_of st) <= instant (date (fields r))) rows /\
  (forall m d acc st', m_date m = Ok d ->
     instant (replace_utc d) < instant (cutoff_of st) ->
     process_body (cutoff_of st) m acc st' =
     mkOut (Ok acc) st' [LDebugMsgDate (replace_utc d) (cutoff_of st);
                         LDebugSkipping (replace_utc d) (cutoff_of st)]).
Proof.
  split.
  - apply Forall_forall. intros r Hr.
    destruct (extract_rows _ _ _ _ _ _ H r Hr)
      as [mb [s [msgs [m [_ [_ [_ [_ (d & subj & frm & to & txt & t & Hd & _ & _ & _ & _ &
                                       Hk & _ & Hf)]]]]]]]].
    rewrite Hf. cbn [date]. rewrite dt_ge_cutoff in Hk. injection Hk as Hk.
    apply Z.leb_le. exact Hk.
  - intros m d acc st' Hd Hlt.
    assert (Hk : dt_ge (replace_utc d) (cutoff_of st) = Ok false).
    { rewrite dt_ge_cutoff. f_equal. apply Z.leb_gt. exact Hlt. }
    unfold process_body.
    rewrite (bind_ok_eq (lift (m_date m)) _ st' d Hd). cbn [res post logs lift log bind].
    rewrite (bind_ok_eq (lift (dt_ge (replace_utc d) (cutoff_of st))) _ st' false Hk).
    reflexivity.
Qed.

Lemma extract_rows_after_cutoff_witness :
  exists rows, res (extract_emails_from_inbox srv_ex "me@y.com" "right" ["a@x.com"] st_ex) = Ok rows /\
  Forall (fun r => instant (cutoff_of st_ex) <= instant (date (fields r))) rows.
Proof.
  eexists. split.
  - vm_compute. reflexivity.
  - apply (extract_rows_after_cutoff srv_ex "me@y.com" "right" ["a@x.com"] st_ex).
    vm_compute. reflexivity.
Defined.

(** C2 (refuted): the row's [date] is [msg.date.replace(tzinfo=utc)], the
    wall clock of the Date header relabelled as UTC, not the same instant
    converted to UTC. For a message sent at 10:00 +02:00 (08:00 UTC) the row
    says 10:00 UTC, two hours later than the message's instant. *)
Theorem extract_date_not_converted :
  exists r, res (extract_emails_from_inbox srv_ex "me@y.com" "right" ["a@x.com"] st_ex) = Ok [r] /\
    m_date msg_ex = Ok (mkDT 1791885600 (Some 7200)) /\
    date (fields r) = mkDT 1791885600 (Some 0) /\
    instant (date (fields r)) = instant (mkDT 1791885600 (Some 7200)) + 7200.
Proof.
  eexists. split; [vm_compute; reflexivity|].
  split; [reflexivity|]. split; reflexivity.
Qed.

(** C3: every returned row comes from a message [m] of one sender's search
    ([row_of]: its subject, sender, recipients and date are [m]'s), and its
    [text] is [m]'s plain-text body when that body is non-empty, and [m]'s
    HTML body otherwise. *)
Theorem extract_text_or_html srv addr pw senders st rows r
  (H : res (extract_emails_from_inbox srv addr pw senders st) = Ok rows)
  (Hr : In r rows) :
  exists mb s msgs m txt,
    login srv addr pw = Ok mb /\ In s senders /\
    fetch mb s (date_of (cutoff_of st)) = Ok msgs /\ In m msgs /\
    row_of (cutoff_of st) m r /\
    m_text m = Ok txt /\
    (txt <> "" -> text (fields r) = txt) /\
    (txt = "" -> m_html m = Ok (text (fields r))).
Proof.
  destruct (extract_rows _ _ _ _ _ _ H r Hr)
    as [mb [s [msgs [m [Hl [Hs [Hf [Hm Hrow]]]]]]]].
  pose proof Hrow as (d & subj & frm & to & txt & t & Hd & _ & _ & _ & Htx & _ & Ht & _).
  exists mb, s, msgs, m, txt. repeat split; auto.
  - intro Hne. destruct (String.eqb txt "") eqn:E.
    + apply String.eqb_eq in E. contradiction.
    + exact Ht.
  - intro He. subst txt. exact Ht.
Qed.

Lemma extract_text_or_html_witness :
  exists rows r, res (extract_emails_from_inbox srv_ex "me@y.com" "right" ["a@x.com"] st_ex) = Ok rows /\
  In r rows /\
  exists mb s msgs m txt,
    login srv_ex "me@y.com" "right" = Ok mb /\ In s ["a@x.com"] /\
    fetch mb s (date_of (cutoff_of st_ex)) = Ok msgs /\ In m msgs /\
    row_of (cutoff_of st_ex) m r /\
    m_text m = Ok txt /\
    (txt <> "" -> text (fields r) = txt) /\
    (txt = "" -> m_html m = Ok (text (fields r))).
Proof.
  eexists. eexists. split; [vm_compute; reflexivity|]. split; [left; reflexivity|].
  eapply (extract_text_or_html srv_ex "me@y.com" "right" ["a@x.com"] st_ex).
  - vm_compute. reflexivity.
  - left. reflexivity.
Defined.

Lemma summarize_res c s :
  res (summarize_single_email c s) = Ok (summary_of (Streams.hd (api s) (prompt_of c))).
Proof.
  rewrite summarize_eq. cbn [prompt_of summary_of].
  destruct (Streams.hd (api s) _) as [e|[|ch l]]; reflexivity.
Qed.

Lemma summarize_post c s :
  post (summarize_single_email c s) = mkSt (clock s) (Streams.tl (api s)) (store s) (db s).
Proof.
  rewrite summarize_eq. destruct (Streams.hd (api s) _) as [e|[|ch l]]; reflexivity.
Qed.

Ltac rewrite_fields :=
  repeat match goal with
  | H : _ = Ok _ |- _ => progress rewrite H
  | H : _ = Raise _ |- _ => progress rewrite H
  | H : String.eqb _ _ = _ |- _ => progress rewrite H
  end.

Ltac run_body :=
  repeat (first [progress rewrite_fields
                | progress cbn [bind lift res post logs ret log now]]).

Ltac fail_case e :=
  exists (BFail e); intros acc st; unfold body_spec, process_body; run_body;
  split; reflexivity.

Lemma process_body_kind cutoff m : exists k, forall acc st, body_spec k cutoff m acc st.
Proof.
  destruct (m_date m) as [d|e] eqn:Hd; [|fail_case e].
  destruct (dt_ge (replace_utc d) cutoff) as [[|]|e] eqn:Hk;
    [| exists BSkip; intros acc st; unfold body_spec, process_body; run_body;
       split; reflexivity
     | fail_case e].
  destruct (m_subject m) as [subj|e] eqn:Hs; [|fail_case e].
  destruct (m_from m) as [frm|e] eqn:Hf; [|fail_case e].
  destruct (m_to m) as [to|e] eqn:Hto; [|fail_case e].
  destruct (m_text m) as [txt|e] eqn:Htx; [|fail_case e].
  destruct (String.eqb txt "") eqn:Hempty.
  - destruct (m_html m) as [html|e] eqn:Hh; [|fail_case e].
    exists (BKeep (mkContent subj frm (join ", " to) (replace_utc d) html)).
    intros acc st. unfold body_spec, process_body. run_body.
    match goal with |- context [bind (summarize_single_email ?c) ?f ?s] =>
      rewrite (bind_ok_eq (summarize_single_email c) f s _ (summarize_res c s)) end.
    rewrite summarize_post. cbn. split; reflexivity.
  - exists (BKeep (mkContent subj frm (join ", " to) (replace_utc d) txt)).
    intros acc st. unfold body_spec, process_body. run_body.
    match goal with |- context [bind (summarize_single_email ?c) ?f ?s] =>
      rewrite (bind_ok_eq (summarize_single_email c) f s _ (summarize_res c s)) end.
    rewrite summarize_post. cbn. split; reflexivity.
Qed.

Lemma process_msgs_cons cutoff m ms acc :
  process_msgs cutoff (m :: ms) acc = bind (step cutoff m acc) (fun acc' => process_msgs cutoff ms acc').
Proof. reflexivity. Qed.

Lemma step_of_body k cutoff m acc st : body_spec k cutoff m acc st -> step_spec k cutoff m acc st.
Proof.
  unfold body_spec, step_spec, step, catch.
  destruct k as [e| |mk]; intros [H1 H2]; rewrite H1; cbn; rewrite ?H1, ?H2; split; reflexivity.
Qed.

Lemma bind_cong {A B} (m1 m2 : M A) (f1 f2 : A -> M B) s :
  same_run (m1 s) (m2 s) -> (forall a s', same_run (f1 a s') (f2 a s')) ->
  same_run (bind m1 f1 s) (bind m2 f2 s).
Proof.
  intros [H1 H2] Hf. unfold bind. cbn. rewrite H1, H2.
  destruct (res (m2 s)) as [a|e].
  - destruct (Hf a (post (m2 s))) as [H3 H4]. split; cbn; assumption.
  - split; reflexivity.
Qed.

Lemma same_run_refl {A} (o : Out A) : same_run o o.
Proof. split; reflexivity. Qed.

(** Dropping a message whose processing raises changes nothing but the log. *)
Lemma process_msgs_drop cutoff m e pre rest :
  (forall acc st, body_spec (BFail e) cutoff m acc st) ->
  forall acc st,
  same_run (process_msgs cutoff (pre ++ m :: rest) acc st)
           (process_msgs cutoff (pre ++ rest) acc st).
Proof.
  intros Hm. induction pre as [|x pre IH]; intros acc st.
  - cbn [app]. rewrite process_msgs_cons.
    destruct (step_of_body _ _ _ _ _ (Hm acc st)) as [H1 H2].
    rewrite (bind_ok_eq _ _ _ _ H1). rewrite H2. split; reflexivity.
  - cbn [app]. rewrite !process_msgs_cons.
    apply bind_cong; [apply same_run_refl|]. intros a s'. apply IH.
Qed.

Lemma process_senders_drop mb1 mb2 cutoff s m e pre rest :
  (forall acc st, body_spec (BFail e) cutoff m acc st) ->
  (forall s' d, s' <> s -> fetch mb1 s' d = fetch mb2 s' d) ->
  fetch mb1 s (date_of cutoff) = Ok (pre ++ m :: rest)%list ->
  fetch mb2 s (date_of cutoff) = Ok (pre ++ rest)%list ->
  forall ss acc st,
  same_run (process_senders mb1 cutoff ss acc st) (process_senders mb2 cutoff ss acc st).
Proof.
  intros Hm Hother H1 H2. induction ss as [|s' ss IH]; intros acc st.
  - apply same_run_refl.
  - cbn [process_senders].
    apply bind_cong; [apply same_run_refl|]. intros u st1.
    destruct (String.eqb_spec s' s) as [->|Hne].
    + rewrite H1, H2.
      rewrite (bind_ok_eq (lift (Ok (pre ++ m :: rest)%list)) _ st1 _ eq_refl).
      rewrite (bind_ok_eq (lift (Ok (pre ++ rest)%list)) _ st1 _ eq_refl).
      cbn [res post logs lift].
      destruct (bind_cong (process_msgs cutoff (pre ++ m :: rest) acc)
                  (process_msgs cutoff (pre ++ rest) acc)
                  (fun acc' => process_senders mb1 cutoff ss acc')
                  (fun acc' => process_senders mb2 cutoff ss acc') st1
                  (process_msgs_drop cutoff m e pre rest Hm acc st1)
                  (fun a s'' => IH a s'')) as [H3 H4].
      split; assumption.
    + rewrite (Hother s' _ Hne).
      apply bind_cong; [apply same_run_refl|]. intros msgs st2.
      apply bind_cong; [apply same_run_refl|]. intros acc' st3. apply IH.
Qed.

(** The rows of the message loop, apart from their summaries, do not depend
    on the answers of the summarization API. *)
Lemma process_msgs_fields cutoff ms : forall acc1 acc2 st1 st2,
  map fields acc1 = map fields acc2 -> clock st1 = clock st2 ->
  exists rows1 rows2,
    res (process_msgs cutoff ms acc1 st1) = Ok rows1 /\
    res (process_msgs cutoff ms acc2 st2) = Ok rows2 /\
    map fields rows1 = map fields rows2.
Proof.
  induction ms as [|m ms IH]; intros acc1 acc2 st1 st2 Hacc Hclk.
  - exists acc1, acc2. auto.
  - rewrite !process_msgs_cons.
    destruct (process_body_kind cutoff m) as [k Hk].
    pose proof (step_of_body _ _ _ _ _ (Hk acc1 st1)) as S1.
    pose proof (step_of_body _ _ _ _ _ (Hk acc2 st2)) as S2.
    destruct k as [e| |mk]; cbn in S1, S2; destruct S1 as [R1 P1]; destruct S2 as [R2 P2];
      rewrite (bind_ok_eq _ _ _ _ R1), (bind_ok_eq _ _ _ _ R2); cbn [res];
      rewrite P1, P2.
    + apply IH; assumption.
    + apply IH; assumption.
    + apply IH; cbn [clock]; [|rewrite Hclk; reflexivity].
      rewrite !map_app, Hacc, Hclk. reflexivity.
Qed.

(** C4 (code bug): when the first choice of the API's answer has a null
    [message.content], [summarize_single_email] returns [None]: no exception
    is raised, nothing is logged after "Generating summary", and the
    fallback "Failed to generate summary" is not used. Through [/extract],
    the row stored for such a message has a null summary and the log has no
    summary error. *)
Theorem summarize_null_content c st l
  (Hnull : Streams.hd (api st) (prompt_of c) = ApiChoices (None :: l)) :
  summarize_single_email c st =
    mkOut (Ok None) (mkSt (clock st) (Streams.tl (api st)) (store st) (db st))
          [LInfoGenerating (prefix30 (subject c))] /\
  (let o := extract_from_email srv_ex (mkRequest "me@y.com" "right" ["a@x.com"]) st_null in
   map summary (db (post o)) = [None] /\
   forall e, ~ In (LErrSummary e) (logs o)).
Proof.
  split.
  - rewrite summarize_eq. cbv zeta. unfold prompt_of in Hnull. rewrite Hnull. reflexivity.
  - split; [vm_compute; reflexivity|].
    intros e. vm_compute. intros H. repeat destruct H as [H|H]; try discriminate. exact H.
Qed.

Lemma summarize_null_content_witness :
  summarize_single_email content_ex st_null =
    mkOut (Ok None) (mkSt (clock st_null) (Streams.tl (api st_null)) (store st_null) (db st_null))
          [LInfoGenerating (prefix30 (subject content_ex))].
Proof.
  exact (proj1 (summarize_null_content content_ex st_null [] eq_refl)).
Defined.

(** C5: a message whose processing raises is skipped: the message loop never
    raises, and its result and final state are those of the loop without
    that message; the same holds for the loop over senders when one sender's
    search yields that message. *)
Theorem failing_message_skipped cutoff m pre rest acc st
  (Hfail : exists acc0 st0 e, res (process_body cutoff m acc0 st0) = Raise e) :
  (exists rows, res (process_msgs cutoff (pre ++ m :: rest) acc st) = Ok rows) /\
  same_run (process_msgs cutoff (pre ++ m :: rest) acc st)
           (process_msgs cutoff (pre ++ rest) acc st) /\
  (forall mb1 mb2 s,
     (forall s' d, s' <> s -> fetch mb1 s' d = fetch mb2 s' d) ->
     fetch mb1 s (date_of cutoff) = Ok (pre ++ m :: rest)%list ->
     fetch mb2 s (date_of cutoff) = Ok (pre ++ rest)%list ->
     forall ss acc' st',
       same_run (process_senders mb1 cutoff ss acc' st')
                (process_senders mb2 cutoff ss acc' st')).
Proof.
  destruct Hfail as (acc0 & st0 & e & He).
  destruct (process_body_kind cutoff m) as [k Hk].
  assert (Hb : forall acc st, body_spec (BFail e) cutoff m acc st).
  { destruct k as [e'| |mk]; pose proof (Hk acc0 st0) as [R _]; rewrite R in He;
      try discriminate.
    injection He as ->. exact Hk. }
  split; [apply process_msgs_ok|]. split.
  - apply (process_msgs_drop cutoff m e pre rest Hb).
  - intros mb1 mb2 s Ho H1 H2. apply (process_senders_drop mb1 mb2 cutoff s m e pre rest Hb Ho H1 H2).
Qed.

Lemma failing_message_skipped_witness :
  (exists rows, res (process_msgs (cutoff_of st_ex) ([] ++ msg_bad :: [msg_ex]) [] st_ex) = Ok rows) /\
  same_run (process_msgs (cutoff_of st_ex) ([] ++ msg_bad :: [msg_ex]) [] st_ex)
           (process_msgs (cutoff_of st_ex) ([] ++ [msg_ex]) [] st_ex).
Proof.
  destruct (failing_message_skipped (cutoff_of st_ex) msg_bad [] [msg_ex] [] st_ex)
    as [H1 [H2 _]].
  - exists [], st_ex, (PyErr "malformed header"). vm_compute. reflexivity.
  - split; assumption.
Defined.

(** C10: the cutoff is read once, from the first clock reading of the
    invocation, before the login (a failed login has consumed exactly that
    reading); the server-side search of every sender uses the date of that
    cutoff; every returned row passed the comparison with that same cutoff,
    and every readable message of the search results at or after it yields a
    row, whatever the clock reads later in the request. *)
Theorem extract_uses_one_cutoff srv addr pw senders st :
  (forall e, login srv addr pw = Raise e ->
     clock (post (extract_emails_from_inbox srv addr pw senders st)) = Streams.tl (clock st)) /\
  (forall mb rows, login srv addr pw = Ok mb ->
     res (extract_emails_from_inbox srv addr pw senders st) = Ok rows ->
     (forall r, In r rows -> exists s msgs m d,
        In s senders /\ fetch mb s (date_of (cutoff_of st)) = Ok msgs /\ In m msgs /\
        m_date m = Ok d /\ date (fields r) = replace_utc d /\
        instant (cutoff_of st) <= instant (replace_utc d)) /\
     (forall s msgs m d, In s senders ->
        fetch mb s (date_of (cutoff_of st)) = Ok msgs -> In m msgs -> readable m d ->
        instant (cutoff_of st) <= instant (replace_utc d) ->
        exists r, In r rows /\ date (fields r) = replace_utc d)).
Proof.
  split.
  - intros e He. unfold extract_emails_from_inbox, catch, bind, lift, log, now, raise.
    cbn. rewrite He. reflexivity.
  - intros mb rows Hl H. split.
    + intros r Hr.
      destruct (extract_rows _ _ _ _ _ _ H r Hr)
        as [mb' [s [msgs [m [Hl' [Hs [Hf [Hm (d & subj & frm & to & txt & t & Hd & _ & _ & _ & _ &
                                               Hk & _ & Hfl)]]]]]]]].
      rewrite Hl in Hl'. injection Hl' as <-.
      exists s, msgs, m, d. repeat split; auto.
      * rewrite Hfl. reflexivity.
      * rewrite dt_ge_cutoff in Hk. injection Hk as Hk. apply Z.leb_le. exact Hk.
    + intros s msgs m d Hs Hf Hm Hr Hle.
      destruct (extract_ok_inv _ _ _ _ _ _ H) as [mb' [st' [Hl' Hp]]].
      rewrite Hl in Hl'. injection Hl' as <-.
      apply (process_senders_complete mb (cutoff_of st) senders s msgs m d [] st' rows);
        auto.
      rewrite dt_ge_cutoff. f_equal. apply Z.leb_le. exact Hle.
Qed.

Lemma extract_uses_one_cutoff_witness :
  exists rows, res (extract_emails_from_inbox srv_ex "me@y.com" "right" ["a@x.com"] st_ex) = Ok rows /\
  exists r, In r rows /\ date (fields r) = replace_utc (mkDT 1791885600 (Some 7200)).
Proof.
  eexists. split; [vm_compute; reflexivity|].
  eapply (proj2 (extract_uses_one_cutoff srv_ex "me@y.com" "right" ["a@x.com"] st_ex) mb_ex).
  - reflexivity.
  - vm_compute. reflexivity.
  - left. reflexivity.
  - reflexivity.
  - left. reflexivity.
  - repeat split; eexists; reflexivity.
  - vm_compute. discriminate.
Defined.

(** ** The store *)

Section Pres.
Context {A B : Type}.

Lemma pres_bind (m : M A) (f : A -> M B) : pres m -> (forall a, pres (f a)) -> pres (bind m f).
Proof.
  intros [Hm] Hf. constructor. intro s. unfold bind. cbn.
  destruct (Hm s) as [H1 H2].
  destruct (res (m s)) as [a|e]; cbn.
  - destruct (pres_st _ (Hf a) (post (m s))) as [H3 H4]. rewrite H3, H4. auto.
  - auto.
Qed.

Lemma pres_catch (m : M A) (h : Exc -> M A) : pres m -> (forall e, pres (h e)) -> pres (catch m h).
Proof.
  intros [Hm] Hh. constructor. intro s. unfold catch. cbn.
  destruct (Hm s) as [H1 H2].
  destruct (res (m s)) as [a|e]; cbn.
  - auto.
  - destruct (pres_st _ (Hh e) (post (m s))) as [H3 H4]. rewrite H3, H4. auto.
Qed.

Lemma pres_ret (a : A) : pres (ret a).
Proof. constructor. intro s. auto. Qed.

Lemma pres_raise e : pres (@raise A e).
Proof. constructor. intro s. auto. Qed.

Lemma pres_lift (r : Res A) : pres (lift r).
Proof. constructor. intro s. auto. Qed.

End Pres.

Lemma pres_log e : pres (log e).
Proof. constructor. intro s. auto. Qed.

Lemma pres_now : pres now.
Proof. constructor. intro s. auto. Qed.

Lemma pres_call_api p : pres (call_api p).
Proof. constructor. intro s. auto. Qed.

Ltac pres_tac :=
  repeat (first
    [ progress intros
    | apply pres_bind | apply pres_catch | apply pres_ret | apply pres_raise
    | apply pres_lift | apply pres_log | apply pres_now | apply pres_call_api
    | match goal with
      | |- pres (let _ := _ in _) => cbv zeta
      | |- pres (if ?b then _ else _) => destruct b
      | |- pres (match ?x with _ => _ end) => destruct x
      end ]).

Lemma pres_summarize c : pres (summarize_single_email c).
Proof. unfold summarize_single_email. pres_tac. Qed.

Lemma pres_process_body cutoff m acc : pres (process_body cutoff m acc).
Proof. unfold process_body. pres_tac. Qed.

Lemma pres_process_msgs cutoff ms : forall acc, pres (process_msgs cutoff ms acc).
Proof.
  induction ms as [|m ms IH]; intros acc; cbn [process_msgs]; pres_tac;
    first [apply IH | apply pres_process_body].
Qed.

Lemma pres_process_senders mb cutoff ss : forall acc, pres (process_senders mb cutoff ss acc).
Proof.
  induction ss as [|s ss IH]; intros acc; cbn [process_senders]; pres_tac;
    first [apply IH | apply pres_process_msgs].
Qed.

Lemma pres_extract srv addr pw senders : pres (extract_emails_from_inbox srv addr pw senders).
Proof. unfold extract_emails_from_inbox. pres_tac; apply pres_process_senders. Qed.

Lemma successes_bounds n s : 0 <= successes n s <= Z.of_nat n.
Proof.
  revert s. induction n as [|n IH]; intros s; cbn [successes]; [lia|].
  specialize (IH (Streams.tl s)). destruct (Streams.hd s); lia.
Qed.

Lemma store_loop_cons r rs count :
  store_loop (r :: rs) count = bind (store_step r count) (fun c' => store_loop rs c').
Proof. reflexivity. Qed.

Lemma store_step_eq r count st :
  store_step r count st =
  match Streams.hd (store st) with
  | None => mkOut (Ok (count + 1))
              (mkSt (clock st) (api st) (Streams.tl (store st)) ((db st ++ [r])%list))
              [LInfoStored (prefix30 (subject (fields r)))]
  | Some err => mkOut (Ok count) (mkSt (clock st) (api st) (Streams.tl (store st)) (db st))
                  [LErrStore (PyErr err)]
  end.
Proof.
  unfold store_step, catch, bind, insert_row, log, ret. cbn.
  destruct (Streams.hd (store st)); reflexivity.
Qed.

Lemma store_loop_spec rows : forall count st,
  let o := store_loop rows count st in
  res o = Ok (count + successes (List.length rows) (store st)) /\
  store (post o) = Streams.Str_nth_tl (List.length rows) (store st) /\
  db (post o) = (db st ++ inserted rows (store st))%list.
Proof.
  induction rows as [|r rows IH]; intros count st; cbn zeta.
  - cbn. rewrite Z.add_0_r, app_nil_r. auto.
  - rewrite store_loop_cons. unfold bind. rewrite store_step_eq.
    cbn [List.length successes inserted Streams.Str_nth_tl].
    destruct (Streams.hd (store st)) as [err|] eqn:Hs; cbn [res post logs].
    + destruct (IH count (mkSt (clock st) (api st) (Streams.tl (store st)) (db st)))
        as [H1 [H2 H3]].
      simpl in H1, H2, H3. rewrite H1, H2, H3.
      split; [f_equal; lia|auto].
    + destruct (IH (count + 1)
                  (mkSt (clock st) (api st) (Streams.tl (store st)) ((db st ++ [r])%list)))
        as [H1 [H2 H3]].
      simpl in H1, H2, H3. rewrite H1, H2, H3. rewrite <- app_assoc.
      split; [f_equal; lia|auto].
Qed.

Lemma extract_from_email_ok srv req st resp :
  res (extract_from_email srv req st) = Ok resp ->
  exists rows,
    res (extract_emails_from_inbox srv (email_address req) (password req)
           (sender_addresses req) st) = Ok rows /\
    match rows with
    | [] => resp = [("message", JStr no_emails_msg);
                    ("senders_processed", JStrList (sender_addresses req))]
    | _ => resp = [("message", JStr "Emails extracted and stored successfully");
                   ("emails_found", JNum (Z.of_nat (List.length rows)));
                   ("emails_stored", JNum (successes (List.length rows) (store st)));
                   ("senders_processed", JStrList (sender_addresses req))]
    end.
Proof.
  unfold extract_from_email. intro H.
  apply catch_res_ok in H as [H|[e [_ H]]].
  - apply bind_res_ok in H as [u [_ H]]. cbn [post log] in H.
    apply bind_res_ok in H as [rows [Hx H]].
    exists rows. split; [exact Hx|].
    destruct rows as [|r rs].
    + cbn in H. injection H as <-. reflexivity.
    + apply bind_res_ok in H as [u' [_ H]]. cbn [post log] in H.
      apply bind_res_ok in H as [stored [Hs H]]. cbn in H. injection H as <-.
      destruct (store_loop_spec (r :: rs) 0
                  (post (extract_emails_from_inbox srv (email_address req) (password req)
                           (sender_addresses req) st))) as [H1 _].
      rewrite Hs in H1. injection H1 as ->.
      rewrite (proj1 (pres_st _ (pres_extract _ _ _ _) st)). reflexivity.
  - apply bind_res_ok in H as [u [_ H]]. cbn [post log] in H.
    destruct e; cbn in H; discriminate.
Qed.

(** C6: the store loop tries every row, one store operation each, whatever
    happened to the previous ones: it never raises, it counts exactly the
    successful inserts and the table receives exactly the rows whose insert
    succeeded; a success response of [/extract] that reports [emails_stored]
    reports the number of successful inserts, and it is at most
    [emails_found], the number of extracted rows. *)
Theorem store_failures_contained :
  (forall rows count st,
     let o := store_loop rows count st in
     res o = Ok (count + successes (List.length rows) (store st)) /\
     store (post o) = Streams.Str_nth_tl (List.length rows) (store st) /\
     db (post o) = (db st ++ inserted rows (store st))%list) /\
  (forall srv req st resp f n,
     res (extract_from_email srv req st) = Ok resp ->
     lookup "emails_found" resp = Some (JNum f) ->
     lookup "emails_stored" resp = Some (JNum n) ->
     exists rows,
       res (extract_emails_from_inbox srv (email_address req) (password req)
              (sender_addresses req) st) = Ok rows /\
       f = Z.of_nat (List.length rows) /\
       n = successes (List.length rows) (store st) /\
       0 <= n <= f).
Proof.
  split; [exact store_loop_spec|].
  intros srv req st resp f n H Hf Hn.
  destruct (extract_from_email_ok _ _ _ _ H) as [rows [Hx Hr]].
  exists rows. split; [exact Hx|].
  destruct rows as [|r rs]; subst resp; [cbn in Hf; discriminate|].
  cbn [lookup String.eqb] in Hf, Hn.
  injection Hf as <-. injection Hn as <-.
  split; [reflexivity|]. split; [reflexivity|].
  exact (successes_bounds (List.length (r :: rs)) (store st)).
Qed.

Lemma store_failures_contained_witness :
  res (extract_from_email srv_two (mkRequest "me@y.com" "pw" ["a@x.com"]) st_flaky) =
    Ok [("message", JStr "Emails extracted and stored successfully");
        ("emails_found", JNum 2); ("emails_stored", JNum 1);
        ("senders_processed", JStrList ["a@x.com"])] /\
  exists rows,
    res (extract_emails_from_inbox srv_two "me@y.com" "pw" ["a@x.com"] st_flaky) = Ok rows /\
    2 = Z.of_nat (List.length rows) /\ 1 = successes (List.length rows) (store st_flaky) /\
    0 <= 1 <= 2.
Proof.
  assert (H : res (extract_from_email srv_two (mkRequest "me@y.com" "pw" ["a@x.com"]) st_flaky) =
    Ok [("message", JStr "Emails extracted and stored successfully");
        ("emails_found", JNum 2); ("emails_stored", JNum 1);
        ("senders_processed", JStrList ["a@x.com"])]) by (vm_compute; reflexivity).
  split; [exact H|].
  exact (proj2 store_failures_contained srv_two (mkRequest "me@y.com" "pw" ["a@x.com"])
           st_flaky _ 2 1 H eq_refl eq_refl).
Defined.

(** C7: when the extraction yields no row (no sender, or no message that
    passed the filter), [/extract] succeeds with only the "no emails found"
    message and the senders it was given, has no [emails_found] key, and
    does no store operation at all. *)
Theorem extract_none_found srv req st
  (H : res (extract_emails_from_inbox srv (email_address req) (password req)
              (sender_addresses req) st) = Ok []) :
  let o := extract_from_email srv req st in
  res o = Ok [("message", JStr no_emails_msg);
              ("senders_processed", JStrList (sender_addresses req))] /\
  lookup "emails_found" [("message", JStr no_emails_msg);
                         ("senders_processed", JStrList (sender_addresses req))] = None /\
  store (post o) = store st /\ db (post o) = db st.
Proof.
  cbn zeta. unfold extract_from_email, catch, bind at 1.
  rewrite (bind_ok_eq (log (LInfoStarting (email_address req))) _ st tt eq_refl).
  cbn [res post logs log].
  rewrite (bind_ok_eq (extract_emails_from_inbox srv (email_address req) (password req)
                         (sender_addresses req)) _ st [] H).
  cbn. destruct (pres_st _ (pres_extract srv (email_address req) (password req)
                              (sender_addresses req)) st) as [H1 H2].
  rewrite H1, H2. auto.
Qed.

Lemma extract_none_found_witness :
  res (extract_from_email srv_ex (mkRequest "me@y.com" "right" []) st_ex) =
    Ok [("message", JStr no_emails_msg); ("senders_processed", JStrList [])].
Proof.
  apply (extract_none_found srv_ex (mkRequest "me@y.com" "right" []) st_ex).
  vm_compute. reflexivity.
Defined.

(** ** Listing *)

(** C8 (code bug): [.order('date.desc')] passes "date.desc" as the column
    with [desc=False], so the request carries [order=date.desc.asc], a term
    PostgREST's order grammar rejects. [/emails] therefore never answers:
    whatever the table holds, it raises an HTTP 500, whose detail is the
    parse error whenever the request reaches the server. *)
Theorem get_emails_order_rejected st :
  order_param "date.desc" false false = "date.desc.asc" /\
  parse_order_term "date.desc.asc" = None /\
  exists err,
    res (get_emails st) = Raise (HTTPExc 500 (DetailStr err)) /\
    (Streams.hd (store st) = None -> err = order_error "date.desc.asc").
Proof.
  split; [reflexivity|]. split; [reflexivity|].
  unfold get_emails, catch, bind, select_ordered, log, ret, raise. cbn.
  destruct (Streams.hd (store st)) as [e|] eqn:Hq; cbn.
  - exists e. split; [reflexivity|discriminate].
  - exists (order_error "date.desc.asc"). split; reflexivity.
Qed.

(** ** The password and the log *)

(** C9 (refuted): the log of [/extract] does depend on the password: with a
    password the server accepts the log goes on with "Successfully
    connected", with one it rejects it records the login failure. *)
Lemma extract_logs_depend_on_password :
  ~ (forall srv addr p1 p2 senders st,
       logs (extract_from_email srv (mkRequest addr p1 senders) st) =
       logs (extract_from_email srv (mkRequest addr p2 senders) st)).
Proof.
  intro H. specialize (H srv_ex "me@y.com" "right" "wrong" ["a@x.com"] st_ex).
  vm_compute in H. discriminate H.
Qed.

(** C9, as the code has it: the password is passed to the IMAP login and to
    nothing else; two [/extract] requests that differ only in their password
    and whose login attempts end the same way (same session, or same error)
    run identically: same response, same final state, same log. *)
Theorem extract_password_only_in_login srv addr p1 p2 senders st
  (Hlogin : login srv addr p1 = login srv addr p2) :
  extract_from_email srv (mkRequest addr p1 senders) st =
  extract_from_email srv (mkRequest addr p2 senders) st.
Proof.
  unfold extract_from_email, extract_emails_from_inbox. cbn [email_address password sender_addresses].
  rewrite Hlogin. reflexivity.
Qed.

Lemma extract_password_only_in_login_witness :
  logs (extract_from_email srv_open (mkRequest "me@y.com" "hunter2" ["a@x.com"]) st_ex) =
  logs (extract_from_email srv_open (mkRequest "me@y.com" "correct horse" ["a@x.com"]) st_ex).
Proof.
  rewrite (extract_password_only_in_login srv_open "me@y.com" "hunter2" "correct horse"
             ["a@x.com"] st_ex eq_refl).
  reflexivity.
Defined.

(** ** Error paths *)

Lemma bind_raise_res {A B} (m : M A) (f : A -> M B) s e :
  res (m s) = Raise e -> res (bind m f s) = Raise e.
Proof. intro H. unfold bind. cbn. rewrite H. reflexivity. Qed.

Lemma catch_raise_res {A} (m : M A) (h : Exc -> M A) s e :
  res (m s) = Raise e -> res (catch m h s) = res (h e (post (m s))).
Proof. intro H. unfold catch. cbn. rewrite H. reflexivity. Qed.

Lemma bind_res_raise {A B} (m : M A) (f : A -> M B) s e :
  res (bind m f s) = Raise e ->
  res (m s) = Raise e \/ exists a, res (m s) = Ok a /\ res (f a (post (m s))) = Raise e.
Proof.
  unfold bind. cbn. destruct (res (m s)) as [a|e']; cbn; intro H.
  - right. exists a. auto.
  - left. injection H as ->. reflexivity.
Qed.

Lemma catch_res_raise {A} (m : M A) (h : Exc -> M A) s e :
  res (catch m h s) = Raise e ->
  exists e0, res (m s) = Raise e0 /\ res (h e0 (post (m s))) = Raise e.
Proof.
  unfold catch. cbn. destruct (res (m s)) as [a|e0] eqn:E; cbn; intro H.
  - rewrite E in H. discriminate.
  - exists e0. auto.
Qed.

(** A failure of the extraction is always the HTTP 500 of its [except]. *)
Lemma extract_raise_shape srv addr pw senders st e :
  res (extract_emails_from_inbox srv addr pw senders st) = Raise e ->
  exists err, e = HTTPExc 500 (DetailFetch "Failed to fetch emails" err addr).
Proof.
  unfold extract_emails_from_inbox. intro H.
  apply catch_res_raise in H as [e0 [_ H]]. cbn in H. injection H as <-.
  eexists. reflexivity.
Qed.

Lemma process_senders_fetch_raise mb cutoff s e ss :
  In s ss -> fetch mb s (date_of cutoff) = Raise e ->
  forall acc st, exists e', res (process_senders mb cutoff ss acc st) = Raise e'.
Proof.
  intros Hs Hf. induction ss as [|s' ss IH]; [destruct Hs|].
  intros acc st. cbn [process_senders].
  rewrite (bind_ok_eq (log (LInfoFetching s')) _ st tt eq_refl). cbn [res post logs log].
  destruct (fetch mb s' (date_of cutoff)) as [msgs|e'] eqn:Hf'.
  - destruct Hs as [->|Hs]; [congruence|].
    rewrite (bind_ok_eq (lift (Ok msgs)) _ st msgs eq_refl). cbn [res post lift].
    destruct (process_msgs_ok cutoff msgs acc st) as [acc' Hp].
    rewrite (bind_ok_eq _ _ _ _ Hp). cbn [res].
    apply IH. exact Hs.
  - exists e'. apply bind_raise_res. reflexivity.
Qed.

Lemma extract_login_eq srv addr pw senders st e
  (He : login srv addr pw = Raise e) :
  extract_emails_from_inbox srv addr pw senders st =
  mkOut (Raise (HTTPExc 500 (DetailFetch "Failed to fetch emails" (exc_str e) addr)))
        (mkSt (Streams.tl (clock st)) (api st) (store st) (db st))
        [LInfoConnecting addr; LErrFetch e].
Proof.
  unfold extract_emails_from_inbox, catch, bind, lift, log, now, raise, ret. cbn.
  rewrite He. reflexivity.
Qed.

(** A rejected login: the extraction raises the HTTP 500 whose detail names
    the login error and the mailbox address; it has read the clock once,
    fetched nothing, called no API and logged exactly the connection attempt
    and the failure. *)
Theorem extract_login_failure srv addr pw senders st e
  (He : login srv addr pw = Raise e) :
  extract_emails_from_inbox srv addr pw senders st =
  mkOut (Raise (HTTPExc 500 (DetailFetch "Failed to fetch emails" (exc_str e) addr)))
        (mkSt (Streams.tl (clock st)) (api st) (store st) (db st))
        [LInfoConnecting addr; LErrFetch e].
Proof. exact (extract_login_eq srv addr pw senders st e He). Qed.

Lemma extract_login_failure_witness :
  extract_emails_from_inbox srv_ex "me@y.com" "wrong" ["a@x.com"] st_ex =
  mkOut (Raise (HTTPExc 500 (DetailFetch "Failed to fetch emails"
                  (exc_str (PyErr "[AUTHENTICATIONFAILED] Invalid credentials")) "me@y.com")))
        (mkSt (Streams.tl (clock st_ex)) (api st_ex) (store st_ex) (db st_ex))
        [LInfoConnecting "me@y.com"; LErrFetch (PyErr "[AUTHENTICATIONFAILED] Invalid credentials")].
Proof.
  apply (extract_login_failure srv_ex "me@y.com" "wrong" ["a@x.com"] st_ex). reflexivity.
Defined.

(** A failing search for any one sender aborts the whole extraction with the
    HTTP 500 of its [except]: no row is returned, not even those of the
    senders already processed. *)
Theorem extract_fetch_failure srv addr pw senders st mb s e
  (Hl : login srv addr pw = Ok mb) (Hs : In s senders)
  (Hf : fetch mb s (date_of (cutoff_of st)) = Raise e) :
  exists err,
    res (extract_emails_from_inbox srv addr pw senders st) =
    Raise (HTTPExc 500 (DetailFetch "Failed to fetch emails" err addr)).
Proof.
  destruct (process_senders_fetch_raise mb (cutoff_of st) s e senders Hs Hf []
              (mkSt (Streams.tl (clock st)) (api st) (store st) (db st))) as [e' He'].
  exists (exc_str e'). unfold extract_emails_from_inbox.
  rewrite (catch_raise_res _ _ _ e'); [reflexivity|].
  rewrite (bind_ok_eq (log (LInfoConnecting addr)) _ st tt eq_refl). cbn [res post logs log].
  rewrite (bind_ok_eq now _ st _ eq_refl). cbn [res post logs now].
  rewrite (bind_ok_eq (lift (login srv addr pw)) _ _ mb Hl). cbn [res post logs lift].
  rewrite (bind_ok_eq (log LInfoConnected) _ _ tt eq_refl). cbn [res post logs log].
  apply bind_raise_res. exact He'.
Qed.

Lemma extract_fetch_failure_witness :
  exists err,
    res (extract_emails_from_inbox srv_flaky "me@y.com" "pw" ["a@x.com"; "b@x.com"] st_ex) =
    Raise (HTTPExc 500 (DetailFetch "Failed to fetch emails" err "me@y.com")).
Proof.
  apply (extract_fetch_failure srv_flaky "me@y.com" "pw" ["a@x.com"; "b@x.com"] st_ex mb_flaky
           "b@x.com" (PyErr "command SEARCH illegal in state AUTH")).
  - reflexivity.
  - right. left. reflexivity.
  - reflexivity.
Defined.

(** Every failure of [/extract] is the HTTP 500 raised by the extraction,
    passed on unchanged, with the request's mailbox address in its detail:
    the store loop never raises, so the generic wrapping of line 213 is never
    reached. *)
Theorem extract_from_email_failure srv req st e
  (H : res (extract_from_email srv req st) = Raise e) :
  exists err, e = HTTPExc 500 (DetailFetch "Failed to fetch emails" err (email_address req)).
Proof.
  unfold extract_from_email in H.
  apply catch_res_raise in H as [e0 [Hb Hh]].
  apply bind_res_raise in Hb as [Hb|[u [_ Hb]]]; [cbn in Hb; discriminate|].
  cbn [post log] in Hb.
  apply bind_res_raise in Hb as [Hb|[rows [_ Hb]]].
  - destruct (extract_raise_shape _ _ _ _ _ _ Hb) as [err ->].
    cbn in Hh. injection Hh as <-. exists err. reflexivity.
  - exfalso. destruct rows as [|r rs]; [cbn in Hb; discriminate|].
    apply bind_res_raise in Hb as [Hb|[u' [_ Hb]]]; [cbn in Hb; discriminate|].
    apply bind_res_raise in Hb as [Hb|[n [_ Hb]]].
    + cbn [post log] in Hb.
      rewrite (proj1 (store_loop_spec _ _ _)) in Hb. discriminate.
    + cbn in Hb. discriminate.
Qed.

Lemma extract_from_email_failure_witness :
  exists err, HTTPExc 500 (DetailFetch "Failed to fetch emails"
                 "[AUTHENTICATIONFAILED] Invalid credentials" "me@y.com") =
              HTTPExc 500 (DetailFetch "Failed to fetch emails" err "me@y.com").
Proof.
  apply (extract_from_email_failure srv_ex (mkRequest "me@y.com" "wrong" ["a@x.com"]) st_ex).
  vm_compute. reflexivity.
Defined.

(** ** What an extraction consumes *)

Lemma process_msgs_calls cutoff ms : forall acc st, exists rows k,
  res (process_msgs cutoff ms acc st) = Ok rows /\
  List.length rows = (List.length acc + k)%nat /\ (k <= List.length ms)%nat /\
  post (process_msgs cutoff ms acc st) =
    mkSt (Streams.Str_nth_tl k (clock st)) (Streams.Str_nth_tl k (api st)) (store st) (db st).
Proof.
  induction ms as [|m ms IH]; intros acc st.
  - exists acc, O. destruct st. cbn. repeat split; lia.
  - rewrite process_msgs_cons. destruct (process_body_kind cutoff m) as [k Hk].
    pose proof (step_of_body _ _ _ _ _ (Hk acc st)) as S1.
    destruct k as [e| |mk]; cbn in S1; destruct S1 as [R1 P1];
      rewrite (bind_ok_eq _ _ _ _ R1); cbn [res post]; rewrite P1.
    + destruct (IH acc st) as [rows [j [H1 [H2 [H3 H4]]]]].
      exists rows, j. cbn [List.length]. repeat split; [assumption|assumption|lia|assumption].
    + destruct (IH acc st) as [rows [j [H1 [H2 [H3 H4]]]]].
      exists rows, j. cbn [List.length]. repeat split; [assumption|assumption|lia|assumption].
    + match goal with |- context [process_msgs cutoff ms ?a ?s] =>
        destruct (IH a s) as [rows [j [H1 [H2 [H3 H4]]]]] end.
      rewrite length_app in H2. cbn [List.length] in H2, H4 |- *.
      exists rows, (S j). repeat split; [assumption|lia|lia|]. rewrite H4. reflexivity.
Qed.

Lemma process_senders_calls mb cutoff ss : forall acc st rows,
  res (process_senders mb cutoff ss acc st) = Ok rows ->
  exists k, List.length rows = (List.length acc + k)%nat /\
    post (process_senders mb cutoff ss acc st) =
      mkSt (Streams.Str_nth_tl k (clock st)) (Streams.Str_nth_tl k (api st)) (store st) (db st).
Proof.
  induction ss as [|s ss IH]; intros acc st rows H.
  - cbn in H. injection H as <-. exists O. destruct st. cbn. split; [lia|reflexivity].
  - cbn [process_senders] in H |- *.
    rewrite (bind_ok_eq (log (LInfoFetching s)) _ st tt eq_refl) in H |- *.
    cbn [res post logs log] in H |- *.
    destruct (fetch mb s (date_of cutoff)) as [msgs|e].
    + rewrite (bind_ok_eq (lift (Ok msgs)) _ st msgs eq_refl) in H |- *.
      cbn [res post logs lift] in H |- *.
      destruct (process_msgs_calls cutoff msgs acc st) as [rows1 [k1 [R1 [L1 [_ P1]]]]].
      rewrite (bind_ok_eq _ _ _ _ R1) in H |- *. cbn [res post] in H |- *.
      rewrite P1 in H |- *.
      destruct (IH _ _ _ H) as [k2 [L2 P2]]. rewrite P2. cbn [clock api store db].
      exists (k2 + k1)%nat. rewrite !Streams.Str_nth_tl_plus. split; [lia|reflexivity].
    + cbn in H. discriminate.
Qed.

Lemma catch_ok_raising {A} (m : M A) (h : Exc -> M A) s a :
  (forall e s', exists e', res (h e s') = Raise e') ->
  res (catch m h s) = Ok a -> res (m s) = Ok a /\ catch m h s = m s.
Proof.
  intros Hh. unfold catch. destruct (res (m s)) as [a'|e] eqn:E.
  - rewrite E. auto.
  - cbn. destruct (Hh e (post (m s))) as [e' He']. rewrite He'. discriminate.
Qed.

Lemma extract_post_ok srv addr pw senders st rows
  (H : res (extract_emails_from_inbox srv addr pw senders st) = Ok rows) :
  post (extract_emails_from_inbox srv addr pw senders st) =
  mkSt (Streams.Str_nth_tl (S (List.length rows)) (clock st))
       (Streams.Str_nth_tl (List.length rows) (api st)) (store st) (db st).
Proof.
  unfold extract_emails_from_inbox in H |- *.
  apply catch_ok_raising in H as [H ->]; [|intros e s'; eexists; reflexivity].
  rewrite (bind_ok_eq (log _) _ st tt eq_refl) in H |- *. cbn [res post logs log] in H |- *.
  rewrite (bind_ok_eq now _ st _ eq_refl) in H |- *. cbn [res post logs now] in H |- *.
  destruct (login srv addr pw) as [mb|e] eqn:Hl; [|cbn in H; discriminate].
  rewrite (bind_ok_eq (lift (Ok mb)) _ _ mb eq_refl) in H |- *. cbn [res post logs lift] in H |- *.
  rewrite (bind_ok_eq (log LInfoConnected) _ _ tt eq_refl) in H |- *.
  cbn [res post logs log] in H |- *.
  destruct (bind_res_ok _ _ _ _ H) as [rows' [Hp _]].
  rewrite (bind_ok_eq _ _ _ _ Hp) in H |- *. cbn in H. injection H as <-.
  cbn [res post logs log ret bind].
  destruct (process_senders_calls _ _ _ _ _ _ Hp) as [k [Lk Pk]]. rewrite Pk.
  cbn [List.length] in Lk. rewrite Lk. reflexivity.
Qed.

(** A successful extraction reads the clock once for the cutoff and once per
    returned row ([extracted_at]), makes exactly one summarization call per
    returned row, none for a skipped or failing message, and leaves the store
    and the table as they were. *)
Theorem extract_consumption srv addr pw senders st rows
  (H : res (extract_emails_from_inbox srv addr pw senders st) = Ok rows) :
  post (extract_emails_from_inbox srv addr pw senders st) =
  mkSt (Streams.Str_nth_tl (S (List.length rows)) (clock st))
       (Streams.Str_nth_tl (List.length rows) (api st)) (store st) (db st).
Proof. exact (extract_post_ok srv addr pw senders st rows H). Qed.

Lemma extract_consumption_witness :
  exists rows, res (extract_emails_from_inbox srv_ex "me@y.com" "right" ["a@x.com"] st_ex) = Ok rows /\
  post (extract_emails_from_inbox srv_ex "me@y.com" "right" ["a@x.com"] st_ex) =
  mkSt (Streams.Str_nth_tl (S (List.length rows)) (clock st_ex))
       (Streams.Str_nth_tl (List.length rows) (api st_ex)) (store st_ex) (db st_ex).
Proof.
  eexists. split; [vm_compute; reflexivity|].
  apply (extract_consumption srv_ex "me@y.com" "right" ["a@x.com"] st_ex). vm_compute. reflexivity.
Defined.

(** ** Summaries, the store, and [/emails] *)

(** The outcome of a summarization (answer, state and log) depends only on
    the subject, the sender, the date and the first 2000 characters of the
    text: the recipients and [extracted_at] are never sent, and nothing of
    the text beyond its 2000th character is. *)
Theorem summarize_prompt_only c1 c2 s
  (Hsub : subject c1 = subject c2) (Hfrom : from_address c1 = from_address c2)
  (Hdate : date c1 = date c2)
  (Htext : py_prefix 2000 (text c1) = py_prefix 2000 (text c2)) :
  summarize_single_email c1 s = summarize_single_email c2 s.
Proof.
  rewrite !summarize_eq. cbn zeta. rewrite Hsub, Hfrom, Hdate, Htext. reflexivity.
Qed.

Lemma summarize_prompt_only_witness :
  summarize_single_email
    (mkContent "Weekly report" "a@x.com" "me@y.com" (mkDT 1791885600 (Some 0))
       (long_text "first ending") (mkDT now_ex (Some 0))) st_ex =
  summarize_single_email
    (mkContent "Weekly report" "a@x.com" "other@y.com, cc@y.com" (mkDT 1791885600 (Some 0))
       (long_text "second ending") (mkDT (now_ex + 60) (Some 0))) st_ex.
Proof.
  apply summarize_prompt_only; [reflexivity|reflexivity|reflexivity|vm_compute; reflexivity].
Defined.

Lemma successes_all n s :
  (forall k, Streams.Str_nth k s = None) -> successes n s = Z.of_nat n.
Proof.
  revert s. induction n as [|n IH]; intros s Hs; [reflexivity|].
  cbn [successes]. pose proof (Hs O) as H0. change (Streams.hd s = None) in H0. rewrite H0.
  rewrite IH; [lia|]. intro k. exact (Hs (S k)).
Qed.

Lemma inserted_all rows s :
  (forall k, Streams.Str_nth k s = None) -> inserted rows s = rows.
Proof.
  revert s. induction rows as [|r rows IH]; intros s Hs; [reflexivity|].
  cbn [inserted]. pose proof (Hs O) as H0. change (Streams.hd s = None) in H0. rewrite H0. cbn [app].
  rewrite IH; [reflexivity|]. intro k. exact (Hs (S k)).
Qed.

Lemma catch_ok_eq {A} (m : M A) (h : Exc -> M A) s a :
  res (m s) = Ok a -> catch m h s = m s.
Proof. intro H. unfold catch. rewrite H. reflexivity. Qed.

Lemma catch_ok_res {A} (m : M A) (h : Exc -> M A) s a :
  res (m s) = Ok a -> res (catch m h s) = Ok a.
Proof. intro H. unfold catch. rewrite H. exact H. Qed.

Lemma bind_ok_res {A B} (m : M A) (f : A -> M B) s a :
  res (m s) = Ok a -> res (bind m f s) = res (f a (post (m s))).
Proof. intro H. unfold bind. rewrite H. reflexivity. Qed.

Lemma bind_ok_post {A B} (m : M A) (f : A -> M B) s a :
  res (m s) = Ok a -> post (bind m f s) = post (f a (post (m s))).
Proof. intro H. unfold bind. rewrite H. reflexivity. Qed.

Lemma log_post e s : post (log e s) = s.
Proof. reflexivity. Qed.

Lemma ret_post {A} (a : A) s : post (ret a s) = s.
Proof. reflexivity. Qed.

(** With a healthy store, a successful extraction of a non-empty list of
    rows is answered with [emails_stored] equal to [emails_found], and the
    table receives exactly these rows, in the order they were extracted. *)
Theorem extract_healthy_store srv req st rows
  (Hs : forall k, Streams.Str_nth k (store st) = None)
  (Hx : res (extract_emails_from_inbox srv (email_address req) (password req)
               (sender_addresses req) st) = Ok rows)
  (Hne : rows <> []) :
  res (extract_from_email srv req st) =
    Ok [("message", JStr "Emails extracted and stored successfully");
        ("emails_found", JNum (Z.of_nat (List.length rows)));
        ("emails_stored", JNum (Z.of_nat (List.length rows)));
        ("senders_processed", JStrList (sender_addresses req))] /\
  db (post (extract_from_email srv req st)) = (db st ++ rows)%list.
Proof.
  destruct (pres_st _ (pres_extract srv (email_address req) (password req) (sender_addresses req)) st)
    as [Hst Hdb].
  destruct rows as [|r rs]; [contradiction|].
  destruct (store_loop_spec (r :: rs) 0
              (post (extract_emails_from_inbox srv (email_address req) (password req)
                       (sender_addresses req) st))) as [R1 [_ D1]].
  cbn zeta in R1, D1. rewrite Hst in R1, D1. rewrite Hdb in D1.
  rewrite successes_all in R1 by exact Hs. rewrite inserted_all in D1 by exact Hs.
  assert (Hres : res (extract_from_email srv req st) =
    Ok [("message", JStr "Emails extracted and stored successfully");
        ("emails_found", JNum (Z.of_nat (List.length (r :: rs))));
        ("emails_stored", JNum (Z.of_nat (List.length (r :: rs))));
        ("senders_processed", JStrList (sender_addresses req))]).
  { unfold extract_from_email.
    apply catch_ok_res.
    rewrite (bind_ok_res (log _) _ st tt eq_refl), log_post. cbv beta.
    rewrite (bind_ok_res _ _ st _ Hx). cbv beta iota.
    rewrite (bind_ok_res (log LInfoStoring) _ _ tt eq_refl), log_post. cbv beta.
    rewrite (bind_ok_res _ _ _ _ R1). reflexivity. }
  split; [exact Hres|].
  unfold extract_from_email in Hres |- *.
  apply catch_res_ok in Hres as [Hres|[e [_ He]]].
  2: { rewrite (bind_ok_res (log _) _ _ tt eq_refl), log_post in He.
       destruct e; discriminate He. }
  rewrite (catch_ok_eq _ _ _ _ Hres).
  rewrite (bind_ok_post (log _) _ st tt eq_refl), log_post. cbv beta.
  rewrite (bind_ok_post _ _ st _ Hx). cbv beta iota.
  rewrite (bind_ok_post (log LInfoStoring) _ _ tt eq_refl), log_post. cbv beta.
  rewrite (bind_ok_post _ _ _ _ R1), ret_post. exact D1.
Qed.

Lemma extract_healthy_store_witness :
  exists rows,
  res (extract_emails_from_inbox srv_ex "me@y.com" "right" ["a@x.com"] st_ex) = Ok rows /\
  res (extract_from_email srv_ex (mkRequest "me@y.com" "right" ["a@x.com"]) st_ex) =
    Ok [("message", JStr "Emails extracted and stored successfully");
        ("emails_found", JNum (Z.of_nat (List.length rows)));
        ("emails_stored", JNum (Z.of_nat (List.length rows)));
        ("senders_processed", JStrList ["a@x.com"])] /\
  db (post (extract_from_email srv_ex (mkRequest "me@y.com" "right" ["a@x.com"]) st_ex)) =
    (db st_ex ++ rows)%list.
Proof.
  eexists. split; [vm_compute; reflexivity|].
  apply (extract_healthy_store srv_ex (mkRequest "me@y.com" "right" ["a@x.com"]) st_ex).
  - intro k. induction k; [reflexivity|exact IHk].
  - vm_compute. reflexivity.
  - vm_compute. discriminate.
Defined.



(** [/emails] is read-only: whatever the query's outcome it consumes exactly
    one store operation, never changes the table, never reads the clock and
    never calls the summarization API. *)
Theorem get_emails_read_only st :
  post (get_emails st) = mkSt (clock st) (api st) (Streams.tl (store st)) (db st).
Proof.
  unfold get_emails, catch, bind, select_ordered, log, ret, raise. cbn.
  destruct (Streams.hd (store st)); [reflexivity|].
  cbn. destruct (sort_desc (db st)); reflexivity.
Qed.

(** ** The state after [/extract] *)

Lemma st_eta s : s = mkSt (clock s) (api s) (store s) (db s).
Proof. destruct s. reflexivity. Qed.

Lemma ret_res {A} (a : A) s : res (ret a s) = Ok a.
Proof. reflexivity. Qed.

Lemma raise_post {A} e s : post (@raise A e s) = s.
Proof. reflexivity. Qed.

Lemma bind_raise_post {A B} (m : M A) (f : A -> M B) s e :
  res (m s) = Raise e -> post (bind m f s) = post (m s).
Proof. intro H. unfold bind. rewrite H. reflexivity. Qed.

Lemma catch_post {A} (m : M A) (h : Exc -> M A) s :
  post (catch m h s) =
  match res (m s) with Ok _ => post (m s) | Raise e => post (h e (post (m s))) end.
Proof. unfold catch. destruct (res (m s)); reflexivity. Qed.

Lemma store_loop_clock_api rows : forall count st,
  clock (post (store_loop rows count st)) = clock st /\
  api (post (store_loop rows count st)) = api st.
Proof.
  induction rows as [|r rows IH]; intros count st; [split; reflexivity|].
  rewrite store_loop_cons. unfold bind. rewrite store_step_eq.
  destruct (Streams.hd (store st)); cbn [res post logs];
    (match goal with |- context [store_loop rows ?c ?s] => destruct (IH c s) as [H1 H2] end;
     rewrite H1, H2; split; reflexivity).
Qed.

(** The whole effect of [/extract] on the state: after a successful
    extraction of [n] rows it has read the clock [n+1] times, called the API
    [n] times, made one store operation per row and appended to the table
    exactly the rows whose insert succeeded, in order; after a failed
    extraction it has made no store operation and the table is unchanged. *)
Theorem extract_from_email_effect srv req st :
  let ex := extract_emails_from_inbox srv (email_address req) (password req)
              (sender_addresses req) in
  (forall rows, res (ex st) = Ok rows ->
     post (extract_from_email srv req st) =
     mkSt (Streams.Str_nth_tl (S (List.length rows)) (clock st))
          (Streams.Str_nth_tl (List.length rows) (api st))
          (Streams.Str_nth_tl (List.length rows) (store st))
          (db st ++ inserted rows (store st))%list) /\
  (forall e, res (ex st) = Raise e ->
     post (extract_from_email srv req st) = post (ex st) /\
     store (post (extract_from_email srv req st)) = store st /\
     db (post (extract_from_email srv req st)) = db st).
Proof.
  cbn zeta. split.
  - intros rows Hx.
    pose proof (extract_post_ok _ _ _ _ _ _ Hx) as Px.
    unfold extract_from_email. rewrite catch_post.
    rewrite (bind_ok_res (log _) _ st tt eq_refl), (bind_ok_post (log _) _ st tt eq_refl),
      log_post. cbv beta.
    rewrite (bind_ok_res _ _ st _ Hx), (bind_ok_post _ _ st _ Hx). cbv beta.
    destruct rows as [|r rs].
    + cbv iota.
      rewrite (bind_ok_res (log _) _ _ tt eq_refl), (bind_ok_post (log _) _ _ tt eq_refl),
        log_post. cbv beta. rewrite ret_res, ret_post. cbv iota.
      rewrite Px. cbn [List.length inserted Streams.Str_nth_tl]. rewrite app_nil_r. reflexivity.
    + cbv iota.
      rewrite (bind_ok_res (log _) _ _ tt eq_refl), (bind_ok_post (log _) _ _ tt eq_refl),
        log_post. cbv beta.
      destruct (store_loop_spec (r :: rs) 0
                  (post (extract_emails_from_inbox srv (email_address req) (password req)
                           (sender_addresses req) st))) as [R1 [S1 D1]].
      cbn zeta in R1, S1, D1.
      destruct (store_loop_clock_api (r :: rs) 0
                  (post (extract_emails_from_inbox srv (email_address req) (password req)
                           (sender_addresses req) st))) as [C1 A1].
      rewrite (bind_ok_res _ _ _ _ R1), (bind_ok_post _ _ _ _ R1). cbv beta.
      rewrite ret_res, ret_post. cbv iota.
      rewrite (st_eta (post (store_loop (r :: rs) 0 _))), C1, A1, S1, D1, Px. reflexivity.
  - intros e Hx.
    destruct (pres_st _ (pres_extract srv (email_address req) (password req)
                           (sender_addresses req)) st) as [Hst Hdb].
    assert (Hpost : post (extract_from_email srv req st) =
                    post (extract_emails_from_inbox srv (email_address req) (password req)
                            (sender_addresses req) st)).
    { unfold extract_from_email. rewrite catch_post.
      rewrite (bind_ok_res (log _) _ st tt eq_refl), (bind_ok_post (log _) _ st tt eq_refl),
        log_post. cbv beta.
      rewrite (bind_raise_res _ _ st _ Hx), (bind_raise_post _ _ st _ Hx). cbv iota.
      rewrite (bind_ok_post (log _) _ _ tt eq_refl), log_post. cbv beta.
      destruct e; cbv iota; rewrite raise_post; reflexivity. }
    rewrite Hpost. auto.
Qed.

Lemma extract_from_email_effect_witness :
  exists rows,
  res (extract_emails_from_inbox srv_ex "me@y.com" "right" ["a@x.com"] st_flaky) = Ok rows /\
  post (extract_from_email srv_ex (mkRequest "me@y.com" "right" ["a@x.com"]) st_flaky) =
  mkSt (Streams.Str_nth_tl (S (List.length rows)) (clock st_flaky))
       (Streams.Str_nth_tl (List.length rows) (api st_flaky))
       (Streams.Str_nth_tl (List.length rows) (store st_flaky))
       (db st_flaky ++ inserted rows (store st_flaky))%list.
Proof.
  eexists. split; [vm_compute; reflexivity|].
  apply (proj1 (extract_from_email_effect srv_ex (mkRequest "me@y.com" "right" ["a@x.com"])
                  st_flaky)).
  vm_compute. reflexivity.
Defined.

(** ** Which answer and which clock reading each row gets *)

Lemma process_body_stamp cutoff m acc st acc' :
  res (process_body cutoff m acc st) = Ok acc' ->
  acc' = acc \/ exists r, acc' = (acc ++ [r])%list /\
    extracted_at (fields r) = mkDT (Streams.hd (clock st)) (Some 0).
Proof.
  unfold process_body. intro H.
  apply bind_res_ok in H as [d [_ H]]. cbn [res post lift ret log] in H.
  apply bind_res_ok in H as [u [_ H]]. cbn [res post lift ret log] in H.
  apply bind_res_ok in H as [keep [_ H]]. cbn [res post lift ret log] in H.
  destruct keep.
  - apply bind_res_ok in H as [subj [_ H]]. cbn [res post lift ret log] in H.
    apply bind_res_ok in H as [frm [_ H]]. cbn [res post lift ret log] in H.
    apply bind_res_ok in H as [to [_ H]]. cbn [res post lift ret log] in H.
    apply bind_res_ok in H as [txt [_ H]]. cbn [res post lift ret log] in H.
    destruct (String.eqb txt "");
      apply bind_res_ok in H as [body [_ H]]; cbn [res post lift ret log] in H;
      apply bind_res_ok in H as [t [Ht H]]; cbn [res post now] in Ht; injection Ht as <-;
      apply bind_res_ok in H as [sm [_ H]];
      apply bind_res_ok in H as [u' [_ H]]; cbn [res post lift ret log] in H;
      injection H as <-; right; eexists; split; reflexivity.
  - apply bind_res_ok in H as [u' [_ H]]. cbn [res post lift ret log] in H. injection H as <-.
    left. reflexivity.
Qed.

Lemma process_msgs_align cutoff ms : forall acc st, exists new,
  res (process_msgs cutoff ms acc st) = Ok (acc ++ new)%list /\
  (forall i r, nth_error new i = Some r ->
     summary r = summary_of (Streams.Str_nth i (api st) (prompt_of (fields r))) /\
     extracted_at (fields r) = mkDT (Streams.Str_nth i (clock st)) (Some 0)) /\
  post (process_msgs cutoff ms acc st) =
    mkSt (Streams.Str_nth_tl (List.length new) (clock st))
         (Streams.Str_nth_tl (List.length new) (api st)) (store st) (db st).
Proof.
  induction ms as [|m ms IH]; intros acc st.
  - exists []. rewrite app_nil_r. split; [reflexivity|]. split.
    + intros [|i] r Hr; discriminate.
    + destruct st. reflexivity.
  - rewrite process_msgs_cons. destruct (process_body_kind cutoff m) as [k Hk].
    pose proof (step_of_body _ _ _ _ _ (Hk acc st)) as S1.
    destruct k as [e| |mk]; cbn in S1; destruct S1 as [R1 P1];
      rewrite (bind_ok_eq _ _ _ _ R1); cbn [res post]; rewrite P1.
    + apply IH.
    + apply IH.
    + set (c := mk (mkDT (Streams.hd (clock st)) (Some 0))) in *.
      set (row0 := mkRow c (summary_of (Streams.hd (api st) (prompt_of c)))).
      assert (Hstamp : extracted_at c = mkDT (Streams.hd (clock st)) (Some 0)).
      { destruct (Hk acc st) as [B1 _]. fold c in B1.
        destruct (process_body_stamp _ _ _ _ _ B1) as [E|[r [E Er]]].
        - exfalso. apply (f_equal (@List.length EmailRow)) in E.
          rewrite length_app in E. cbn in E. lia.
        - apply app_inj_tail in E as [_ <-]. exact Er. }
      destruct (IH (acc ++ [row0])%list
                  (mkSt (Streams.tl (clock st)) (Streams.tl (api st)) (store st) (db st)))
        as [new [H1 [H2 H3]]].
      exists (row0 :: new). split; [|split].
      * rewrite H1, <- app_assoc. reflexivity.
      * intros [|i] r Hr.
        -- injection Hr as <-. split; [reflexivity|exact Hstamp].
        -- exact (H2 i r Hr).
      * rewrite H3. reflexivity.
Qed.

Lemma process_senders_align mb cutoff ss : forall acc st rows,
  res (process_senders mb cutoff ss acc st) = Ok rows ->
  exists new, rows = (acc ++ new)%list /\
  (forall i r, nth_error new i = Some r ->
     summary r = summary_of (Streams.Str_nth i (api st) (prompt_of (fields r))) /\
     extracted_at (fields r) = mkDT (Streams.Str_nth i (clock st)) (Some 0)) /\
  post (process_senders mb cutoff ss acc st) =
    mkSt (Streams.Str_nth_tl (List.length new) (clock st))
         (Streams.Str_nth_tl (List.length new) (api st)) (store st) (db st).
Proof.
  induction ss as [|s ss IH]; intros acc st rows H.
  - cbn in H. injection H as <-. exists []. rewrite app_nil_r. split; [reflexivity|]. split.
    + intros [|i] r Hr; discriminate.
    + destruct st. reflexivity.
  - cbn [process_senders] in H |- *.
    rewrite (bind_ok_eq (log (LInfoFetching s)) _ st tt eq_refl) in H |- *.
    cbn [res post logs log] in H |- *.
    destruct (fetch mb s (date_of cutoff)) as [msgs|e]; [|cbn in H; discriminate].
    rewrite (bind_ok_eq (lift (Ok msgs)) _ st msgs eq_refl) in H |- *.
    cbn [res post logs lift] in H |- *.
    destruct (process_msgs_align cutoff msgs acc st) as [new1 [R1 [N1 P1]]].
    rewrite (bind_ok_eq _ _ _ _ R1) in H |- *. cbn [res post] in H |- *.
    rewrite P1 in H |- *.
    destruct (IH _ _ _ H) as [new2 [E2 [N2 P2]]].
    exists (new1 ++ new2)%list. split; [|split].
    + rewrite E2, app_assoc. reflexivity.
    + intros i r Hr.
      destruct (Nat.lt_ge_cases i (List.length new1)) as [Hlt|Hge].
      * rewrite nth_error_app1 in Hr by exact Hlt. exact (N1 i r Hr).
      * rewrite nth_error_app2 in Hr by exact Hge.
        destruct (N2 _ r Hr) as [Hs Hc]. cbn [api clock] in Hs, Hc.
        unfold Streams.Str_nth in Hs, Hc |- *.
        rewrite Streams.Str_nth_tl_plus, Nat.sub_add in Hs, Hc by exact Hge.
        split; assumption.
    + rewrite P2. cbn [clock api store db]. rewrite !Streams.Str_nth_tl_plus, length_app.
      rewrite (Nat.add_comm (List.length new2)). reflexivity.
Qed.

(** The [i]-th extracted row carries the answer of the [i]-th summarization
    call to that row's own prompt, and it is stamped with the clock reading
    that follows the [i] readings before it (the first reading being the
    cutoff's): answers are never mixed up between rows. *)
Theorem extract_rows_aligned srv addr pw senders st rows
  (H : res (extract_emails_from_inbox srv addr pw senders st) = Ok rows) :
  forall i r, nth_error rows i = Some r ->
    summary r = summary_of (Streams.Str_nth i (api st) (prompt_of (fields r))) /\
    extracted_at (fields r) = mkDT (Streams.Str_nth (S i) (clock st)) (Some 0).
Proof.
  unfold extract_emails_from_inbox in H.
  apply catch_ok_raising in H as [H _]; [|intros e s'; eexists; reflexivity].
  rewrite (bind_ok_eq (log _) _ st tt eq_refl) in H. cbn [res post logs log] in H.
  rewrite (bind_ok_eq now _ st _ eq_refl) in H. cbn [res post logs now] in H.
  destruct (login srv addr pw) as [mb|e]; [|cbn in H; discriminate].
  rewrite (bind_ok_eq (lift (Ok mb)) _ _ mb eq_refl) in H. cbn [res post logs lift] in H.
  rewrite (bind_ok_eq (log LInfoConnected) _ _ tt eq_refl) in H. cbn [res post logs log] in H.
  destruct (bind_res_ok _ _ _ _ H) as [rows' [Hp Hr]].
  rewrite (bind_ok_eq _ _ _ _ Hp) in H. cbn in H. injection H as <-.
  destruct (process_senders_align _ _ _ _ _ _ Hp) as [new [-> [N _]]].
  exact N.
Qed.

Lemma extract_rows_aligned_witness :
  exists rows r,
    res (extract_emails_from_inbox srv_ex "me@y.com" "right" ["a@x.com"] st_ex) = Ok rows /\
    nth_error rows 0 = Some r /\
    summary r = summary_of (Streams.Str_nth 0 (api st_ex) (prompt_of (fields r))) /\
    extracted_at (fields r) = mkDT (Streams.Str_nth 1 (clock st_ex)) (Some 0).
Proof.
  do 2 eexists. split; [vm_compute; reflexivity|]. split; [reflexivity|].
  eapply (extract_rows_aligned srv_ex "me@y.com" "right" ["a@x.com"] st_ex).
  - vm_compute. reflexivity.
  - reflexivity.
Defined.

Lemma bind_ok_logs {A B} (m : M A) (f : A -> M B) s a :
  res (m s) = Ok a -> logs (bind m f s) = (logs (m s) ++ logs (f a (post (m s))))%list.
Proof. intro H. unfold bind. rewrite H. reflexivity. Qed.

Lemma bind_raise_logs {A B} (m : M A) (f : A -> M B) s e :
  res (m s) = Raise e -> logs (bind m f s) = logs (m s).
Proof. intro H. unfold bind. rewrite H. reflexivity. Qed.

Lemma catch_raise_post {A} (m : M A) (h : Exc -> M A) s e :
  res (m s) = Raise e -> post (catch m h s) = post (h e (post (m s))).
Proof. intro H. unfold catch. rewrite H. reflexivity. Qed.

Lemma catch_raise_logs {A} (m : M A) (h : Exc -> M A) s e :
  res (m s) = Raise e -> logs (catch m h s) = (logs (m s) ++ logs (h e (post (m s))))%list.
Proof. intro H. unfold catch. rewrite H. reflexivity. Qed.

(** ** The endpoint when the login is rejected *)

(** A rejected login fails [/extract] with the HTTP 500 of the extraction,
    even when the request names no sender: the mailbox is logged into before
    any sender is considered, so the "no emails found" answer is never given
    then; nothing is stored and no summarization call is made. *)
Theorem extract_from_email_login_failure srv req st e
  (He : login srv (email_address req) (password req) = Raise e) :
  let err := HTTPExc 500 (DetailFetch "Failed to fetch emails" (exc_str e) (email_address req)) in
  res (extract_from_email srv req st) = Raise err /\
  post (extract_from_email srv req st) =
    mkSt (Streams.tl (clock st)) (api st) (store st) (db st) /\
  logs (extract_from_email srv req st) =
    [LInfoStarting (email_address req); LInfoConnecting (email_address req);
     LErrFetch e; LErrExtract err].
Proof.
  cbn zeta.
  pose proof (extract_login_eq srv (email_address req) (password req) (sender_addresses req)
                st e He) as Hx.
  assert (Rx : res (extract_emails_from_inbox srv (email_address req) (password req)
                      (sender_addresses req) st) =
               Raise (HTTPExc 500 (DetailFetch "Failed to fetch emails" (exc_str e)
                                     (email_address req)))) by (rewrite Hx; reflexivity).
  unfold extract_from_email.
  assert (Rb : res ((log (LInfoStarting (email_address req));;
     extracted <- extract_emails_from_inbox srv (email_address req) (password req)
                    (sender_addresses req);
     match extracted with
     | [] =>
         log LWarnNoEmails;;
         ret [("message", JStr no_emails_msg);
              ("senders_processed", JStrList (sender_addresses req))]
     | _ =>
         log LInfoStoring;;
         stored <- store_loop extracted 0;
         ret [("message", JStr "Emails extracted and stored successfully");
              ("emails_found", JNum (Z.of_nat (List.length extracted)));
              ("emails_stored", JNum stored);
              ("senders_processed", JStrList (sender_addresses req))]
     end) st) = Raise (HTTPExc 500 (DetailFetch "Failed to fetch emails" (exc_str e)
                                     (email_address req)))).
  { rewrite (bind_ok_res (log _) _ st tt eq_refl), log_post. cbv beta.
    exact (bind_raise_res _ _ st _ Rx). }
  rewrite (catch_raise_res _ _ _ _ Rb), (catch_raise_post _ _ _ _ Rb),
    (catch_raise_logs _ _ _ _ Rb).
  rewrite (bind_ok_post (log _) _ st tt eq_refl), (bind_ok_logs (log _) _ st tt eq_refl),
    log_post. cbv beta.
  rewrite (bind_raise_post _ _ st _ Rx), (bind_raise_logs _ _ st _ Rx).
  rewrite (bind_ok_res (log _) _ _ tt eq_refl), (bind_ok_post (log _) _ _ tt eq_refl),
    (bind_ok_logs (log _) _ _ tt eq_refl), log_post. cbv beta iota.
  rewrite raise_post, Hx. split; [reflexivity|]. split; reflexivity.
Qed.

Lemma extract_from_email_login_failure_witness :
  let err := HTTPExc 500 (DetailFetch "Failed to fetch emails"
                  "[AUTHENTICATIONFAILED] Invalid credentials" "me@y.com") in
  res (extract_from_email srv_ex (mkRequest "me@y.com" "wrong" []) st_ex) = Raise err /\
  post (extract_from_email srv_ex (mkRequest "me@y.com" "wrong" []) st_ex) =
    mkSt (Streams.tl (clock st_ex)) (api st_ex) (store st_ex) (db st_ex) /\
  logs (extract_from_email srv_ex (mkRequest "me@y.com" "wrong" []) st_ex) =
    [LInfoStarting "me@y.com"; LInfoConnecting "me@y.com";
     LErrFetch (PyErr "[AUTHENTICATIONFAILED] Invalid credentials"); LErrExtract err].
Proof.
  apply (extract_from_email_login_failure srv_ex (mkRequest "me@y.com" "wrong" []) st_ex
           (PyErr "[AUTHENTICATIONFAILED] Invalid credentials")).
  reflexivity.
Defined.

(** ** When every insert fails *)

Lemma successes_none n s :
  (forall k, exists err, Streams.Str_nth k s = Some err) -> successes n s = 0.
Proof.
  revert s. induction n as [|n IH]; intros s Hs; [reflexivity|].
  cbn [successes]. destruct (Hs O) as [err H0]. change (Streams.hd s = Some err) in H0.
  rewrite H0, IH; [reflexivity|]. intro k. exact (Hs (S k)).
Qed.

Lemma inserted_none rows s :
  (forall k, exists err, Streams.Str_nth k s = Some err) -> inserted rows s = [].
Proof.
  revert s. induction rows as [|r rows IH]; intros s Hs; [reflexivity|].
  cbn [inserted]. destruct (Hs O) as [err H0]. change (Streams.hd s = Some err) in H0.
  rewrite H0, IH; [reflexivity|]. intro k. exact (Hs (S k)).
Qed.

Lemma extract_from_email_nonempty srv req st r rs
  (Hx : res (extract_emails_from_inbox srv (email_address req) (password req)
               (sender_addresses req) st) = Ok (r :: rs)) :
  res (extract_from_email srv req st) =
    Ok [("message", JStr "Emails extracted and stored successfully");
        ("emails_found", JNum (Z.of_nat (List.length (r :: rs))));
        ("emails_stored", JNum (successes (List.length (r :: rs)) (store st)));
        ("senders_processed", JStrList (sender_addresses req))] /\
  db (post (extract_from_email srv req st)) = (db st ++ inserted (r :: rs) (store st))%list.
Proof.
  destruct (pres_st _ (pres_extract srv (email_address req) (password req) (sender_addresses req)) st)
    as [Hst Hdb].
  destruct (store_loop_spec (r :: rs) 0
              (post (extract_emails_from_inbox srv (email_address req) (password req)
                       (sender_addresses req) st))) as [R1 [_ D1]].
  cbn zeta in R1, D1. rewrite Hst in R1, D1. rewrite Hdb in D1.
  assert (Hres : res (extract_from_email srv req st) =
    Ok [("message", JStr "Emails extracted and stored successfully");
        ("emails_found", JNum (Z.of_nat (List.length (r :: rs))));
        ("emails_stored", JNum (successes (List.length (r :: rs)) (store st)));
        ("senders_processed", JStrList (sender_addresses req))]).
  { unfold extract_from_email.
    apply catch_ok_res.
    rewrite (bind_ok_res (log _) _ st tt eq_refl), log_post. cbv beta.
    rewrite (bind_ok_res _ _ st _ Hx). cbv beta iota.
    rewrite (bind_ok_res (log LInfoStoring) _ _ tt eq_refl), log_post. cbv beta.
    rewrite (bind_ok_res _ _ _ _ R1). reflexivity. }
  split; [exact Hres|].
  unfold extract_from_email in Hres |- *.
  apply catch_res_ok in Hres as [Hres|[e [_ He]]].
  2: { rewrite (bind_ok_res (log _) _ _ tt eq_refl), log_post in He.
       destruct e; discriminate He. }
  rewrite (catch_ok_eq _ _ _ _ Hres).
  rewrite (bind_ok_post (log _) _ st tt eq_refl), log_post. cbv beta.
  rewrite (bind_ok_post _ _ st _ Hx). cbv beta iota.
  rewrite (bind_ok_post (log LInfoStoring) _ _ tt eq_refl), log_post. cbv beta.
  rewrite (bind_ok_post _ _ _ _ R1), ret_post. exact D1.
Qed.

(** When every insert fails, [/extract] still answers with the success
    message, reporting the extracted rows as found and none as stored; the
    table is unchanged. *)
Theorem extract_store_down srv req st rows
  (Hs : forall k, exists err, Streams.Str_nth k (store st) = Some err)
  (Hx : res (extract_emails_from_inbox srv (email_address req) (password req)
               (sender_addresses req) st) = Ok rows)
  (Hne : rows <> []) :
  res (extract_from_email srv req st) =
    Ok [("message", JStr "Emails extracted and stored successfully");
        ("emails_found", JNum (Z.of_nat (List.length rows)));
        ("emails_stored", JNum 0);
        ("senders_processed", JStrList (sender_addresses req))] /\
  db (post (extract_from_email srv req st)) = db st.
Proof.
  destruct rows as [|r rs]; [contradiction|].
  destruct (extract_from_email_nonempty srv req st r rs Hx) as [H1 H2].
  rewrite successes_none in H1 by exact Hs. rewrite inserted_none, app_nil_r in H2 by exact Hs.
  split; assumption.
Qed.

Lemma extract_store_down_witness :
  exists rows,
  res (extract_emails_from_inbox srv_ex "me@y.com" "right" ["a@x.com"] st_store_down) = Ok rows /\
  res (extract_from_email srv_ex (mkRequest "me@y.com" "right" ["a@x.com"]) st_store_down) =
    Ok [("message", JStr "Emails extracted and stored successfully");
        ("emails_found", JNum (Z.of_nat (List.length rows)));
        ("emails_stored", JNum 0);
        ("senders_processed", JStrList ["a@x.com"])] /\
  db (post (extract_from_email srv_ex (mkRequest "me@y.com" "right" ["a@x.com"]) st_store_down)) =
    db st_store_down.
Proof.
  eexists. split; [vm_compute; reflexivity|].
  apply (extract_store_down srv_ex (mkRequest "me@y.com" "right" ["a@x.com"]) st_store_down).
  - intro k. exists "permission denied for table emails". induction k; [reflexivity|exact IHk].
  - vm_compute. reflexivity.
  - vm_compute. discriminate.
Defined.
